(* ===== verification/_CoqProject ===== *)
-Q . S2P
Prelude.v
JsString.v
JsNumber.v
JsArray.v
Resolver.v
Zod.v
Schema.v
Form.v
View.v
Spec.v
App.v
