(* ===== verification/Prelude.v ===== *)
(** * Expense tracker ([src/assets/Form.tsx]): a verification development

    The program is one React component, [Form], in [src/src/assets/Form.tsx].
    It keeps a list of expense rows and a category filter in component
    state, validates a three-field form against a zod schema, appends a row
    on a valid submission, deletes a row by index, and renders the rows that
    pass the filter together with their total.

    ** Parts of the program and the files that model them

    - [Prelude] (this file): the notation scope [js_scope] ([===], [!==]),
      the class [ToBoolean] (JavaScript truthiness), the tactics and hint
      databases of the development, and the lemmas on lists (deletion,
      filters, [nth_filter]) and integer sums that several components
      share.
    - [JsString]: JavaScript strings as [string], one [ascii] per UTF-16
      code unit below 256.  [toLowerCase] and [includes] as
      [String.prototype.toLowerCase] and [String.prototype.includes]
      behave on such strings, with the declarative specification of
      [includes] (a substring exists) and the case-folding laws.
    - [JsNumber]: the [number] values the program can produce, [NaN] and the
      integers, with [parseInt] (the ECMAScript algorithm with an undefined
      radix: leading white space, sign, [0x] prefix, longest digit prefix),
      number addition, truthiness and [toString]; the round trip
      [parseInt (toString n) = n], truncation at the first code unit that is
      no digit, and the safe-integer bound.
    - [JsArray]: [Array.prototype.filter] with the index argument, [map]
      with the index argument and [reduce], with the equivalence of the
      index filter used by [onDelete] and list deletion.
    - [Resolver]: the contract between the form hook and a validation
      library as the class [Resolver] with its laws; the state of the hook
      ([UseForm]: values, errors and the flag [isSubmitted]) and
      [handleSubmit], [isValid] and [onChange] of react-hook-form with its
      default modes (validation at submission, then of the edited field at
      each change), defined and proved against the class.
    - [Zod]: the part of zod the schema uses ([z_string], [z_min],
      [z_refine], objects of string fields, [safeParse]) and [zodResolver];
      the instance [zod_Resolver] discharges the laws of [Resolver] for
      every object schema.
    - [Schema]: the zod [schema] of lines 6-14, field by field, with its
      error messages, the type [FormData] of line 22, and the instance of
      [Resolver] the component uses ([zodResolver schema], line 48).
    - [Form]: the component's state (the record [state]: [rows] and
      [selected] of lines 25-26 and the hook of lines 44-48) and its
      handlers [onDelete] (28-30), [filterCategories] (32-38, with its
      callback [keepRow]), [handleSelected] (40-42), [onSubmit] (50-59, with
      the row [toRow] it builds), [submit] which is [handleSubmit(onSubmit)]
      (63), and [input], the [onChange] of a registered input.  States
      with the same rows and selection are equivalent ([≡]); the handlers
      and the view respect the equivalence.
    - [View]: the JSX of lines 61-174 as a tree of [node]s, one definition
      per element ([formView], [descriptionField], [amountField],
      [categoryField], [submitButton], [filterSelect], [tableHead],
      [tableRow], [totalRow] with [total], [tableBody], [tableSection],
      [render]); a prop that holds a function holds a [handler].  The
      functions [children], [clickHandlers], [textContent], [optionValues]
      and [classOf] read a tree back.
    - [Spec]: the abstract entry-list manager of the specification
      (entries with an integer amount and an enumerated category, a filter
      that is "all" or one category; add at the end, delete by position,
      select; view, total, hidden total row), and [deleteShown], the
      deletion of the entry displayed at an index, which is what a user
      means by a click.
    - [App]: the [event]s of the user interface, [handle] which dispatches
      them to the handlers as the JSX wires them, [runEvents], the events a
      rendered tree offers ([offered]), the [step] relation and [reachable]
      states, the invariants [validRows] and [uiInvariant], and the
      abstraction [abs] to [Spec] with its action map [absEvent].

    ** How state and operations correspond to the code

    [useState] cells are fields of the record [Form.state]; a call of a
    setter is a record update, and a handler is a function from the state of
    the render that created it to the next state.  Events are handled one at
    a time and React re-renders between two events, so a handler always
    closes over the current state; this is the one assumption on React the
    model makes.  The form hook's values mirror the DOM inputs that
    [register] connects.  Errors are values: a rejected submission is the
    [Invalid] answer of the resolver and ends in the [errors] map of the
    hook; [NaN] is a constructor of [number].

    ** What the theorems show

    - [App.refinement], [App.simulation], [App.observations],
      [App.stutter_table]: the component refines [Spec]: offered events are
      abstract actions or stutters, stutters leave the table as it is, and
      the view, the total and the visibility of the total row are those of
      the abstract machine;
    - [App.events_validRows], [App.reachable_uiInvariant],
      [App.events_total]: every row passed the schema (its description has
      at least three code units, its amount is a non-zero integer, never
      [NaN], its category is not empty), categories and selection come from
      the selectors, and the total is an integer sum;
    - [App.events_messages], [App.events_no_message],
      [Form.input_revalidates]: the messages the form displays are the
      schema's verdict on the current values once the form has been
      submitted, and there is none before;
    - [Form.submit_accepted], [Form.submit_rejected], [Form.submit_twice],
      [View.submit_messages], [Schema.schema_accepts],
      [Schema.amount_toString], [Schema.amount_truncated]: a valid
      submission appends exactly one row at the end and does not reset the
      form, an invalid one leaves the rows as they were and reports the
      message of each failing field; which amounts the schema accepts;
    - [Form.onDelete_lookup], [Form.onDelete_view], [App.click_removes],
      [App.delete_unfiltered], [App.click_intended],
      [App.delete_under_filter], [App.click_not_intended]: [onDelete]
      removes exactly the row at the given position of the list and keeps
      the order of the others; the position it is given is the one of the
      filtered view, which is the intended deletion when nothing is
      filtered out and removes a hidden row otherwise;
    - [Form.filterCategories_spec], [Form.filterCategories_unfiltered],
      [App.reachable_filter], [App.selection_noninterference]:
      [filterCategories] keeps every row for "all" and for the initial
      empty selection, and otherwise the rows whose lower-cased category
      contains the lower-cased selection; on the values the two selectors
      offer, containment is equality; changing the filter never changes the
      rows;
    - [View.tableBody_row], [View.totalRow_shown], [View.submitButton_grey],
      [View.table_rectangular], [View.total_NaN]: what the rendered tree
      displays;
    - [App.reachable_iff_events], [App.rows_constructible]: the step
      relation agrees with the executable run, and every list of valid
      entries can be entered;
    - [Form.toRow_toString], [Form.toRow_safe], [View.total_safe]: the
      displayed amount reads back to the stored one, and amounts and their
      sums stay within the integers a double represents exactly.

    ** Bounds

    Numbers are mathematical integers.  The program's [number]s are IEEE
    doubles, which represent every integer of magnitude at most [2^53]
    exactly and add them exactly while the sum stays in that range;
    [Form.toRow_safe] proves that an amount typed with at most 15
    characters is in that range, and [View.total_safe] that every
    intermediate sum of the total is, when the number of rows times a bound
    on the amounts is.  Beyond it the model and the program may differ.  Strings are sequences of code units below 256 (Latin-1);
    [toLowerCase] is exact on them.  No definition uses fuel: every
    recursion is structural, so every function of the model is total.

    ** Not modelled

    The browser (the DOM, the sanitisation an [<input type="number">]
    applies to what is typed), React's scheduling of renders and its
    reconciliation by [key], react-hook-form's touched and dirty flags,
    focus management and the asynchrony of validation, and CSS.
*)

From stdpp Require Export prelude strings pretty.

(** ** Notation: JavaScript's strict (in)equality on values with decidable
    equality, in a scope of its own. *)

Declare Scope js_scope.
Delimit Scope js_scope with js.
Notation "x === y" := (bool_decide (x = y))
  (at level 70, no associativity) : js_scope.
Notation "x !== y" := (negb (bool_decide (x = y)))
  (at level 70, no associativity) : js_scope.
Global Open Scope js_scope.

(** ** Truthiness: ECMAScript's [ToBoolean], one instance per type of value. *)

Class ToBoolean (A : Type) := toBoolean : A → bool.
Global Hint Mode ToBoolean ! : typeclass_instances.
Global Arguments toBoolean {_ _} !_ / : assert.

Global Instance bool_ToBoolean : ToBoolean bool := λ b, b.

(** The length of a string is its number of code units; the empty string is
    the only falsy one. *)
Global Instance string_ToBoolean : ToBoolean string :=
  λ s, negb (bool_decide (s = "")).

(** ** Hint databases *)

(** [js] holds the resolution hints of the components, and the rewriting
    database of the same name their simplification equations. *)
Create HintDb js.
Create Rewrite HintDb js.

(** ** Tactics *)

(** Turns boolean connectives and [bool_decide] in the goal and the
    hypotheses into propositions. *)
Ltac bool_prop :=
  repeat match goal with
  | H : _ && _ = true |- _ => apply andb_true_iff in H as [? ?]
  | H : _ || _ = true |- _ => apply orb_true_iff in H
  | H : negb _ = true |- _ => apply negb_true_iff in H
  | H : negb _ = false |- _ => apply negb_false_iff in H
  | H : bool_decide _ = true |- _ => apply bool_decide_eq_true in H
  | H : bool_decide _ = false |- _ => apply bool_decide_eq_false in H
  | |- _ && _ = true => apply andb_true_iff; split
  | |- negb _ = true => apply negb_true_iff
  | |- bool_decide _ = true => apply bool_decide_eq_true
  | |- bool_decide _ = false => apply bool_decide_eq_false
  end.

(** Decides a closed decidable proposition by evaluation. *)
Ltac by_compute := apply (bool_decide_unpack _); vm_compute; exact I.

(** Case analysis on every [bool_decide] and [decide], then clean up. *)
Ltac case_decides :=
  repeat (case_bool_decide || case_decide); simplify_eq/=; try done.

(** ** Shared definitions *)

(** The position in [l] of the element that stands at position [k] of
    [filter P l], if there is one. *)
Fixpoint nth_filter {A} (P : A → Prop) `{!∀ x, Decision (P x)} (l : list A) (k : nat) :
    option nat :=
  match l with
  | [] => None
  | x :: l' =>
      if decide (P x)
      then match k with
           | 0 => Some 0
           | S k' => S <$> nth_filter P l' k'
           end
      else S <$> nth_filter P l' k
  end.

(** ** Shared lemmas *)

Section lists.
Context {A : Type}.
Implicit Types (l k : list A) (x : A) (i j : nat).

(** Deleting at a position beyond the end changes nothing. *)
Lemma delete_ge l i : length l ≤ i → delete i l = l.
Proof.
  revert i. induction l as [|x l IH]; intros [|i] ?; simpl in *; try done; try lia.
  f_equal. apply IH. lia.
Qed.

(** Deleting inside the left part of an append. *)
Lemma delete_app_l l k i : i < length l → delete i (l ++ k) = delete i l ++ k.
Proof.
  revert i. induction l as [|x l IH]; intros [|i] ?; simpl in *; try done; try lia.
  f_equal. apply IH. lia.
Qed.

(** Deleting inside the right part of an append. *)
Lemma delete_app_r l k i :
  length l ≤ i → delete i (l ++ k) = l ++ delete (i - length l) k.
Proof.
  revert i. induction l as [|x l IH]; intros i ?; simpl in *.
  - by rewrite Nat.sub_0_r.
  - destruct i as [|i]; [lia|]. simpl. f_equal. apply IH. lia.
Qed.

(** A property of every element holds of every element of a sublist. *)
Lemma Forall_sublist (P : A → Prop) l k :
  l `sublist_of` k → Forall P k → Forall P l.
Proof.
  rewrite !Forall_forall. intros Hsub Hk x Hx. by eapply Hk, elem_of_sublist.
Qed.

(** Mapping a function over a list gives the empty list only from it. *)
Lemma fmap_nil_iff {B} (f : A → B) l : f <$> l = [] ↔ l = [].
Proof. split; [apply fmap_nil_inv|by intros ->]. Qed.

(** Two predicates that agree on the elements of a list filter it alike. *)
Lemma filter_Forall_iff (P Q : A → Prop) `{!∀ x, Decision (P x), !∀ x, Decision (Q x)} l :
  Forall (λ x, P x ↔ Q x) l → filter P l = filter Q l.
Proof.
  induction 1 as [|x l HPQ _ IH]; [done|]. rewrite !filter_cons, IH.
  destruct (decide (P x)), (decide (Q x)); tauto.
Qed.

(** Filtering after deleting position [i]: when the element there passes
    the filter, it is deleted from the filtered list, at the position that
    counts the elements before [i] that pass; when it does not, the
    filtered list is unchanged. *)
Lemma filter_delete (P : A → Prop) `{!∀ x, Decision (P x)} l i x :
  l !! i = Some x →
  filter P (delete i l) =
    if decide (P x) then delete (length (filter P (take i l))) (filter P l)
    else filter P l.
Proof.
  revert i. induction l as [|y l IH]; intros [|i] Hi; simplify_eq/=.
  - rewrite filter_cons. by case_decide.
  - rewrite !filter_cons, (IH i) by done. clear IH.
    destruct (decide (P y)), (decide (P x)); by rewrite ?filter_cons_True by done.
Qed.

(** A filter keeps a list whole exactly when every element passes. *)
Lemma filter_length_Forall (P : A → Prop) `{!∀ x, Decision (P x)} l :
  length (filter P l) = length l ↔ Forall P l.
Proof.
  split.
  - intros Hlen. apply Forall_forall. intros x Hx.
    destruct (decide (P x)) as [|Hn]; [done|].
    pose proof (length_filter_lt P l x Hx Hn). lia.
  - induction 1 as [|x l' Hx _ IH]; [done|].
    rewrite filter_cons_True by done. cbn. by rewrite IH.
Qed.

(** [nth_filter] finds an element that passes, below as many passing
    elements as its position in the filtered list. *)
Lemma nth_filter_Some (P : A → Prop) `{!∀ x, Decision (P x)} l j i :
  nth_filter P l j = Some i →
  ∃ x, l !! i = Some x ∧ P x ∧ length (filter P (take i l)) = j.
Proof.
  revert j i. induction l as [|y l IH]; intros j i; [done|]. cbn [nth_filter].
  destruct (decide (P y)) as [Hy|Hy]; [destruct j as [|j]|].
  - intros [= <-]. by exists y.
  - intros (i' & (x & ? & ? & Hlen)%IH & ->)%fmap_Some. exists x.
    cbn [take]. by rewrite filter_cons_True, <-Hlen by done.
  - intros (i' & (x & ? & ? & Hlen)%IH & ->)%fmap_Some. exists x.
    cbn [take]. by rewrite filter_cons_False by done.
Qed.

(** The element it finds is the one at that position of the filtered
    list. *)
Lemma nth_filter_lookup (P : A → Prop) `{!∀ x, Decision (P x)} l j :
  filter P l !! j = nth_filter P l j ≫= (l !!.).
Proof.
  revert j. induction l as [|y l IH]; intros j; [done|].
  rewrite filter_cons. cbn [nth_filter]. destruct (decide (P y)); [destruct j as [|j]|].
  - done.
  - cbn [lookup list_lookup]. rewrite IH. by destruct (nth_filter P l j).
  - rewrite IH. by destruct (nth_filter P l j).
Qed.

(** Deleting the element it finds deletes position [j] of the filtered
    list. *)
Lemma filter_delete_nth (P : A → Prop) `{!∀ x, Decision (P x)} l j i :
  nth_filter P l j = Some i → filter P (delete i l) = delete j (filter P l).
Proof.
  intros (x & Hx & HP & <-)%nth_filter_Some.
  by rewrite (filter_delete P l i x Hx), decide_True by done.
Qed.

(** When every element up to position [j] passes, the element it finds is
    the one at [j]. *)
Lemma nth_filter_id (P : A → Prop) `{!∀ x, Decision (P x)} l j :
  j < length l → Forall P (take (S j) l) → nth_filter P l j = Some j.
Proof.
  revert j. induction l as [|y l IH]; intros j Hj; cbn in Hj; [lia|].
  cbn [take nth_filter]. intros [Hy Hl]%Forall_cons. rewrite decide_True by done.
  destruct j as [|j]; [done|]. rewrite IH; [done|lia|done].
Qed.

(** What a filter keeps satisfies its predicate. *)
Lemma Forall_filter_self (P : A → Prop) `{!∀ x, Decision (P x)} l :
  Forall P (filter P l).
Proof. apply Forall_forall. by intros x [? _]%list_elem_of_filter. Qed.

End lists.

(** Sums of integers by a left fold, as [reduce] computes them. *)
Section sums.
Context {A : Type} (f : A → Z).
Implicit Types (l k : list A) (a : Z).

Definition Zsum l : Z := foldr (λ x s, f x + s)%Z 0%Z l.

Lemma Zsum_nil : Zsum [] = 0%Z.
Proof. done. Qed.

Lemma Zsum_cons x l : Zsum (x :: l) = (f x + Zsum l)%Z.
Proof. done. Qed.

Lemma foldl_Zadd l a : foldl (λ s x, s + f x)%Z a l = (a + Zsum l)%Z.
Proof.
  revert a. induction l as [|x l IH]; intros a; simpl; [lia|].
  rewrite IH. lia.
Qed.

Lemma Zsum_app l k : Zsum (l ++ k) = (Zsum l + Zsum k)%Z.
Proof. induction l as [|x l IH]; simpl; lia. Qed.

Lemma Zsum_nonneg l : Forall (λ x, 0 ≤ f x)%Z l → (0 ≤ Zsum l)%Z.
Proof. induction 1; simpl; lia. Qed.

(** A sum of terms of magnitude at most [B] has magnitude at most the
    number of terms times [B]. *)
Lemma Zsum_bound l (B : Z) :
  Forall (λ x, - B ≤ f x ≤ B)%Z l →
  (- (Z.of_nat (length l) * B) ≤ Zsum l ≤ Z.of_nat (length l) * B)%Z.
Proof. induction 1; simpl; [lia|]. rewrite Nat2Z.inj_succ. lia. Qed.

Lemma Zsum_delete l i x :
  l !! i = Some x → Zsum (delete i l) = (Zsum l - f x)%Z.
Proof.
  revert i. induction l as [|y l IH]; intros [|i] ?; simplify_eq/=; [lia|].
  erewrite IH by done. lia.
Qed.

End sums.

#[export] Hint Resolve Forall_delete list_elem_of_delete_inv : js.
#[export] Hint Rewrite @Zsum_app @Zsum_nil @Zsum_cons : js.
