(* ===== verification/JsString.v ===== *)
(** * JavaScript strings

    A JavaScript string is a sequence of UTF-16 code units.  The model is
    [string], one [ascii] per code unit, which covers the code units below
    256 (Latin-1).  [String.length] is the [length] property.  This file
    defines the two string methods the component calls in
    [filterCategories], [toLowerCase] and [includes], proves the
    declarative specification of [includes] and the laws of case folding,
    and collects the lemmas on [+:+] the other files use. *)

From S2P Require Import Prelude.
From Stdlib Require Import Ascii.

(** ** Definitions *)

(** The code units that [toLowerCase] changes: [A]-[Z], and the Latin-1
    capitals [U+00C0]-[U+00DE] except the multiplication sign [U+00D7]. *)
Definition isUpperCase (c : ascii) : bool :=
  let n := N_of_ascii c in
  ((65 <=? n) && (n <=? 90) || (192 <=? n) && (n <=? 222) && negb (n =? 215))%N.

(** The lower-case mapping of one code unit: the capital's code plus 32. *)
Definition toLowerChar (c : ascii) : ascii :=
  if isUpperCase c then ascii_of_N (N_of_ascii c + 32) else c.

(** [s.toLowerCase()]. *)
Fixpoint toLowerCase (s : string) : string :=
  match s with
  | "" => ""
  | String c s' => String (toLowerChar c) (toLowerCase s')
  end.

(** [s.startsWith(t)]: [t] is a prefix of [s]. *)
Definition startsWith (s t : string) : bool := String.prefix t s.
Global Arguments startsWith : simpl never.

(** [s.includes(t)]: [t] occurs in [s] at some position, tried from the
    left. *)
Fixpoint includes (s t : string) : bool :=
  startsWith s t ||
  match s with
  | "" => false
  | String _ s' => includes s' t
  end.

(** A string with no capital in it. *)
Fixpoint isLowerCase (s : string) : bool :=
  match s with
  | "" => true
  | String c s' => negb (isUpperCase c) && isLowerCase s'
  end.

(** ** Lemmas on append and length *)

Lemma string_app_cons (c : ascii) (s t : string) :
  String c s +:+ t = String c (s +:+ t).
Proof. done. Qed.

Lemma string_app_nil_r (s : string) : s +:+ "" = s.
Proof. induction s as [|c s IH]; [done|]. by rewrite string_app_cons, IH. Qed.

Lemma string_app_assoc (s t u : string) : (s +:+ t) +:+ u = s +:+ t +:+ u.
Proof. induction s as [|c s IH]; [done|]. by rewrite !string_app_cons, IH. Qed.

Lemma string_length_app (s t : string) :
  String.length (s +:+ t) = String.length s + String.length t.
Proof.
  induction s as [|c s IH]; [done|]. rewrite string_app_cons. cbn. by rewrite IH.
Qed.

Lemma string_length_zero (s : string) : String.length s = 0 ↔ s = "".
Proof. by destruct s. Qed.

(** A string is truthy exactly when it has at least one code unit. *)
Lemma toBoolean_string (s : string) : toBoolean s = true ↔ 1 ≤ String.length s.
Proof. destruct s; cbn; [split; [done|lia]|split; [lia|done]]. Qed.

#[export] Hint Rewrite string_app_nil_r string_app_assoc string_length_app : js.

(** ** Case folding *)

Lemma toLowerChar_not_upper (c : ascii) : isUpperCase (toLowerChar c) = false.
Proof. by destruct c as [[] [] [] [] [] [] [] []]. Qed.

Lemma toLowerChar_idemp (c : ascii) : toLowerChar (toLowerChar c) = toLowerChar c.
Proof. unfold toLowerChar at 1. by rewrite toLowerChar_not_upper. Qed.

Lemma toLowerCase_length (s : string) :
  String.length (toLowerCase s) = String.length s.
Proof. induction s as [|c s IH]; [done|]. cbn. by rewrite IH. Qed.

Lemma toLowerCase_app (s t : string) :
  toLowerCase (s +:+ t) = toLowerCase s +:+ toLowerCase t.
Proof.
  induction s as [|c s IH]; [done|]. rewrite string_app_cons. cbn. by rewrite IH.
Qed.

Lemma toLowerCase_isLowerCase (s : string) : isLowerCase (toLowerCase s) = true.
Proof.
  induction s as [|c s IH]; [done|]. cbn.
  by rewrite toLowerChar_not_upper, IH.
Qed.

Lemma toLowerCase_id (s : string) : isLowerCase s = true → toLowerCase s = s.
Proof.
  induction s as [|c s IH]; [done|]. cbn. intros. bool_prop.
  unfold toLowerChar. rewrite IH by done.
  by destruct (isUpperCase c).
Qed.

Lemma toLowerCase_idemp (s : string) :
  toLowerCase (toLowerCase s) = toLowerCase s.
Proof. apply toLowerCase_id, toLowerCase_isLowerCase. Qed.

Lemma toLowerCase_empty (s : string) : toLowerCase s = "" ↔ s = "".
Proof. by destruct s. Qed.

(** ** Prefixes and substrings *)

Lemma startsWith_spec (s t : string) :
  startsWith s t = true ↔ ∃ post, s = t +:+ post.
Proof.
  unfold startsWith. revert s. induction t as [|c t IH]; intros s.
  { split; [by exists s|by destruct s]. }
  setoid_rewrite string_app_cons.
  destruct s as [|d s]; [split; [done|by intros [? ?]]|].
  cbn. destruct (ascii_dec c d) as [->|Hne].
  - rewrite IH. split; intros [post ?]; exists post; congruence.
  - split; [done|]. intros [post ?]. congruence.
Qed.

Lemma startsWith_empty (s : string) : startsWith s "" = true.
Proof. apply startsWith_spec. by exists s. Qed.

Lemma includes_startsWith (s t : string) :
  startsWith s t = true → includes s t = true.
Proof. destruct s; cbn; by intros ->. Qed.

Lemma includes_intro (pre t post : string) :
  includes (pre +:+ t +:+ post) t = true.
Proof.
  induction pre as [|c pre IH].
  - apply includes_startsWith, startsWith_spec. by exists post.
  - rewrite string_app_cons. cbn. rewrite IH. apply orb_true_r.
Qed.

Lemma includes_elim (s t : string) :
  includes s t = true → ∃ pre post, s = pre +:+ t +:+ post.
Proof.
  induction s as [|c s IH]; cbn; intros H; bool_prop.
  - destruct H as [[post ->]%startsWith_spec|]; [by exists "", post|done].
  - destruct H as [[post ->]%startsWith_spec|H]; [by exists "", post|].
    destruct (IH H) as (pre & post & ->). by exists (String c pre), post.
Qed.

(** [s.includes(t)] holds exactly when [t] occurs in [s]: some prefix
    and some suffix surround a copy of [t]. *)
Lemma includes_spec (s t : string) :
  includes s t = true ↔ ∃ pre post, s = pre +:+ t +:+ post.
Proof.
  split; [apply includes_elim|]. intros (pre & post & ->). apply includes_intro.
Qed.

(** Every string includes the empty string: the filter that is the empty
    string keeps every row. *)
Lemma includes_empty (s : string) : includes s "" = true.
Proof. apply includes_startsWith, startsWith_empty. Qed.

Lemma includes_refl (s : string) : includes s s = true.
Proof. apply includes_spec. exists "", "". by rewrite string_app_nil_r. Qed.

(** A substring is no longer than the string it occurs in. *)
Lemma includes_length (s t : string) :
  includes s t = true → String.length t ≤ String.length s.
Proof.
  intros (pre & post & ->)%includes_spec. rewrite !string_length_app. lia.
Qed.

(** A substring of the same length is the string itself. *)
Lemma includes_same_length (s t : string) :
  includes s t = true → String.length s = String.length t → s = t.
Proof.
  intros (pre & post & ->)%includes_spec. rewrite !string_length_app. intros.
  assert (pre = "") as -> by (apply string_length_zero; lia).
  assert (post = "") as -> by (apply string_length_zero; lia).
  by rewrite string_app_nil_r.
Qed.

Lemma includes_trans (s t u : string) :
  includes s t = true → includes t u = true → includes s u = true.
Proof.
  intros (p1 & q1 & ->)%includes_spec (p2 & q2 & ->)%includes_spec.
  apply includes_spec. exists (p1 +:+ p2), (q2 +:+ q1).
  by rewrite !string_app_assoc.
Qed.

(** Only the empty string occurs in the empty string. *)
Lemma includes_in_empty (t : string) : includes "" t = true ↔ t = "".
Proof.
  split; [|intros ->; done].
  intros ?%includes_length. by apply string_length_zero, Nat.le_0_r.
Qed.

(** Case folding preserves occurrences. *)
Lemma includes_toLowerCase (s t : string) :
  includes s t = true → includes (toLowerCase s) (toLowerCase t) = true.
Proof.
  intros (pre & post & ->)%includes_spec. rewrite !toLowerCase_app.
  apply includes_intro.
Qed.

#[export] Hint Resolve includes_empty includes_refl startsWith_empty : js.
#[export] Hint Rewrite toLowerCase_length toLowerCase_idemp toLowerCase_app : js.
