(* ===== verification/JsNumber.v ===== *)
(** * JavaScript numbers and [parseInt]

    The numbers the component can produce are the results of [parseInt] and
    of additions that start from [0]: [NaN] and integers.  [number] has
    these two cases.  An IEEE double represents an integer exactly while its
    magnitude is at most [2^53]; [parseInt_safe] shows that an amount typed
    with at most 15 code units stays in that range, where the model and
    the program agree.

    [parseInt] follows ECMAScript 19.2.5 for a call with one argument
    (radix undefined): trim leading white space, read a sign, strip a [0x]
    prefix (radix 16) or keep radix 10, take the longest prefix of digits of
    that radix, and answer [NaN] when it is empty.  [toString] is
    Number::toString on these values, which for an integer is stdpp's
    [pretty].  The main results are the characterisation of truthiness, the
    round trip [parseInt (toString n) = n] and the bound. *)

From S2P Require Import Prelude JsString.
From Stdlib Require Import Ascii.
Local Open Scope Z_scope.

(** ** Values *)

Inductive number := NaN | Int (z : Z).
Global Instance number_eq_dec : EqDecision number.
Proof. solve_decision. Defined.

(** [ToBoolean] of a number: [NaN], [+0] and [-0] are falsy. *)
Global Instance number_ToBoolean : ToBoolean number := λ n,
  match n with
  | NaN => false
  | Int z => negb (bool_decide (z = 0))
  end.

(** Number addition: [NaN] is absorbing. *)
Definition number_add (a b : number) : number :=
  match a, b with
  | Int x, Int y => Int (x + y)
  | _, _ => NaN
  end.

(** Number::toString, the conversion a JSX expression applies to a number. *)
Definition toString (n : number) : string :=
  match n with
  | NaN => "NaN"
  | Int z => pretty z
  end.

(** The integers a double represents exactly, and adds exactly. *)
Definition MAX_SAFE_INTEGER : Z := 2 ^ 53 - 1.

Definition isSafeInteger (n : number) : bool :=
  match n with
  | NaN => false
  | Int z => bool_decide (- MAX_SAFE_INTEGER ≤ z ≤ MAX_SAFE_INTEGER)
  end.

(** ** [parseInt] *)

(** StrWhiteSpaceChar below 256: TAB, LF, VT, FF, CR, SP and NBSP. *)

Definition isStrWhiteSpaceChar (c : ascii) : bool :=
  match N_of_ascii c with
  | 9 | 10 | 11 | 12 | 13 | 32 | 160 => true
  | _ => false
  end%N.

(** Step 2: remove leading white space. *)
Fixpoint trimStart (s : string) : string :=
  match s with
  | "" => ""
  | String c s' => if isStrWhiteSpaceChar c then trimStart s' else s
  end.

(** The value of a digit in radix 36: [0]-[9], then letters of either
    case. *)
Definition digitValue (c : ascii) : option Z :=
  let n := Z.of_N (N_of_ascii c) in
  if (48 <=? n) && (n <=? 57) then Some (n - 48)
  else if (97 <=? n) && (n <=? 122) then Some (n - 87)
  else if (65 <=? n) && (n <=? 90) then Some (n - 55)
  else None.

(** A digit of radix [R]. *)
Definition radixDigit (R : Z) (c : ascii) : option Z :=
  match digitValue c with
  | Some d => if d <? R then Some d else None
  | None => None
  end.

(** Step 11-12: the values of the longest prefix of radix-[R] digits. *)
Fixpoint digitsPrefix (R : Z) (s : string) : list Z :=
  match s with
  | "" => []
  | String c s' =>
      match radixDigit R c with
      | Some d => d :: digitsPrefix R s'
      | None => []
      end
  end.

(** Step 14: the integer the digits denote, most significant first. *)
Definition mathInt (R : Z) (ds : list Z) : Z := foldl (λ acc d, acc * R + d) 0 ds.

(** Steps 3-5: the sign, and the string after it. *)
Definition stripSign (s : string) : Z * string :=
  match s with
  | String "-" s' => (-1, s')
  | String "+" s' => (1, s')
  | _ => (1, s)
  end.

(** Steps 8-10 for an undefined radix: [0x] or [0X] selects radix 16,
    anything else radix 10. *)
Definition stripPrefix (s : string) : Z * string :=
  match s with
  | String "0" (String "x" s') | String "0" (String "X" s') => (16, s')
  | _ => (10, s)
  end.

(** Steps 8-16: the digits after the sign. *)
Definition parseDigits (sign : Z) (s : string) : number :=
  let '(R, s') := stripPrefix s in
  match digitsPrefix R s' with
  | [] => NaN
  | ds => Int (sign * mathInt R ds)
  end.

(** [parseInt(s)]. *)
Definition parseInt (s : string) : number :=
  let '(sign, s') := stripSign (trimStart s) in parseDigits sign s'.

(** Strings of decimal digits, and their value. *)
Definition isDecimalDigit (c : ascii) : bool :=
  let n := N_of_ascii c in ((48 <=? n) && (n <=? 57))%N.

Fixpoint isDecimal (s : string) : bool :=
  match s with
  | "" => true
  | String c s' => isDecimalDigit c && isDecimal s'
  end.

Definition decimalValue (s : string) : Z := mathInt 10 (digitsPrefix 10 s).

(** ** Digits and their value *)

Lemma mathInt_foldl R ds a :
  foldl (λ acc d, acc * R + d) a ds = a * R ^ Z.of_nat (length ds) + mathInt R ds.
Proof.
  unfold mathInt. revert a. induction ds as [|d ds IH]; intros a; simpl.
  - rewrite Z.pow_0_r. lia.
  - rewrite IH, (IH (0 * R + d)). rewrite Nat2Z.inj_succ, Z.pow_succ_r by lia. ring.
Qed.

Lemma mathInt_cons R d ds :
  mathInt R (d :: ds) = d * R ^ Z.of_nat (length ds) + mathInt R ds.
Proof. unfold mathInt at 1. simpl. rewrite mathInt_foldl. ring. Qed.

Lemma radixDigit_decimal c :
  isDecimalDigit c = true →
  radixDigit 10 c = Some (Z.of_N (N_of_ascii c) - 48).
Proof. by destruct c as [[] [] [] [] [] [] [] []]. Qed.

Lemma pretty_N_char_digit x :
  (x < 10)%N →
  isDecimalDigit (pretty_N_char x) = true ∧
  Z.of_N (N_of_ascii (pretty_N_char x)) - 48 = Z.of_N x.
Proof.
  intros. assert (x = 0 ∨ x = 1 ∨ x = 2 ∨ x = 3 ∨ x = 4 ∨ x = 5 ∨ x = 6
    ∨ x = 7 ∨ x = 8 ∨ x = 9)%N as Hx by lia.
  by destruct_or!; subst.
Qed.

Lemma digitsPrefix_decimal_length s :
  isDecimal s = true → length (digitsPrefix 10 s) = String.length s.
Proof.
  induction s as [|c s IH]; [done|]. cbn. intros. bool_prop.
  rewrite radixDigit_decimal by done. cbn. by rewrite IH.
Qed.

Lemma decimalValue_cons c s :
  isDecimalDigit c = true → isDecimal s = true →
  decimalValue (String c s) =
    (Z.of_N (N_of_ascii c) - 48) * 10 ^ Z.of_nat (String.length s) + decimalValue s.
Proof.
  intros Hc Hs. unfold decimalValue. cbn [digitsPrefix].
  rewrite radixDigit_decimal by done.
  by rewrite mathInt_cons, digitsPrefix_decimal_length.
Qed.

Lemma pretty_N_go_decimal x s :
  isDecimal s = true →
  isDecimal (pretty_N_go x s) = true ∧
  (String.length s ≤ String.length (pretty_N_go x s))%nat ∧
  decimalValue (pretty_N_go x s) =
    Z.of_N x * 10 ^ Z.of_nat (String.length s) + decimalValue s.
Proof.
  revert s. induction (N.lt_wf_0 x) as [x _ IH]; intros s Hs.
  destruct (decide (x = 0)%N) as [->|Hx].
  { rewrite pretty_N_go_0. split_and!; [done|done|lia]. }
  rewrite pretty_N_go_step by lia.
  destruct (pretty_N_char_digit (x `mod` 10)%N) as [Hd Hv];
    [by apply N.mod_lt|].
  destruct (IH (x `div` 10)%N) with (s := String (pretty_N_char (x `mod` 10)) s)
    as (H1 & H2 & H3); [apply N.div_lt; lia|cbn; by rewrite Hd, Hs|].
  split_and!; [done|etrans; [|exact H2]; cbn; lia|].
  rewrite H3, decimalValue_cons, Hv by done. cbn [String.length].
  rewrite Nat2Z.inj_succ, Z.pow_succ_r by lia.
  pose proof (N.div_mod x 10). lia.
Qed.

(** ** Parsing decimal strings *)

(** A decimal digit is neither white space, nor a sign, nor the [x] of a
    hexadecimal prefix. *)
Lemma isDecimalDigit_plain c :
  isDecimalDigit c = true →
  isStrWhiteSpaceChar c = false ∧ c ≠ "-"%char ∧ c ≠ "+"%char ∧
  c ≠ "x"%char ∧ c ≠ "X"%char.
Proof. by destruct c as [[] [] [] [] [] [] [] []]. Qed.

Lemma stripSign_plain c s :
  c ≠ "-"%char → c ≠ "+"%char → stripSign (String c s) = (1, String c s).
Proof. by destruct c as [[] [] [] [] [] [] [] []]. Qed.

Lemma stripPrefix_plain c d s :
  d ≠ "x"%char → d ≠ "X"%char →
  stripPrefix (String c (String d s)) = (10, String c (String d s)).
Proof.
  intros. destruct c as [[] [] [] [] [] [] [] []]; try done.
  by destruct d as [[] [] [] [] [] [] [] []].
Qed.

Lemma stripPrefix_decimal s : isDecimal s = true → stripPrefix s = (10, s).
Proof.
  destruct s as [|c [|d s]]; cbn; intros; bool_prop.
  - done.
  - by destruct c as [[] [] [] [] [] [] [] []].
  - destruct (isDecimalDigit_plain d) as (_ & _ & _ & ? & ?); [done|].
    by apply stripPrefix_plain.
Qed.

Lemma digitsPrefix_decimal_nonempty s :
  isDecimal s = true → s ≠ "" → digitsPrefix 10 s ≠ [].
Proof.
  intros Hs Hne Hnil. apply Hne, string_length_zero.
  rewrite <-digitsPrefix_decimal_length by done. by rewrite Hnil.
Qed.

(** After the sign, a non-empty string of decimal digits parses to its
    value, with that sign. *)
Lemma parseDigits_decimal sign s :
  isDecimal s = true → s ≠ "" → parseDigits sign s = Int (sign * decimalValue s).
Proof.
  intros Hs Hne. unfold parseDigits, decimalValue.
  rewrite stripPrefix_decimal by done.
  pose proof (digitsPrefix_decimal_nonempty s Hs Hne).
  by destruct (digitsPrefix 10 s).
Qed.

Lemma parseInt_decimal s :
  isDecimal s = true → s ≠ "" → parseInt s = Int (decimalValue s).
Proof.
  intros Hs Hne. destruct s as [|c s]; [done|].
  assert (isDecimalDigit c = true) as Hc by (cbn in Hs; by bool_prop).
  destruct (isDecimalDigit_plain c Hc) as (Hws & ? & ? & _).
  unfold parseInt. cbn [trimStart]. rewrite Hws, stripSign_plain by done.
  rewrite parseDigits_decimal by done. f_equal. lia.
Qed.

(** ** Parsing stops at the first code unit that is no digit *)

(** A code unit that ends a decimal numeral: no decimal digit, and not the
    [x] that would make a leading [0] a hexadecimal prefix.  The decimal
    point and the [e] of an exponent are such code units. *)
Lemma digitsPrefix_stop ds c rest :
  isDecimal ds = true → radixDigit 10 c = None →
  digitsPrefix 10 (ds +:+ String c rest) = digitsPrefix 10 ds.
Proof.
  intros Hds Hc. induction ds as [|d ds IH]; cbn [digitsPrefix].
  - change ("" +:+ String c rest) with (String c rest). cbn [digitsPrefix]. by rewrite Hc.
  - cbn in Hds. bool_prop. rewrite string_app_cons. cbn [digitsPrefix].
    rewrite radixDigit_decimal by done. by rewrite IH.
Qed.

Lemma stripPrefix_stop ds c rest :
  isDecimal ds = true → ds ≠ "" → c ≠ "x"%char → c ≠ "X"%char →
  stripPrefix (ds +:+ String c rest) = (10, ds +:+ String c rest).
Proof.
  intros Hds Hne ??. destruct ds as [|d [|d' ds]]; [done| |].
  - by apply stripPrefix_plain.
  - cbn in Hds. bool_prop. rewrite !string_app_cons.
    destruct (isDecimalDigit_plain d') as (_ & _ & _ & ? & ?); [done|].
    by apply stripPrefix_plain.
Qed.

(** [parseInt] reads the digits before such a code unit and ignores the
    rest: a fraction is truncated, an exponent is dropped. *)
Lemma parseInt_stop ds c rest :
  isDecimal ds = true → ds ≠ "" →
  radixDigit 10 c = None → c ≠ "x"%char → c ≠ "X"%char →
  parseInt (ds +:+ String c rest) = Int (decimalValue ds).
Proof.
  intros Hds Hne Hc ??. pose proof (digitsPrefix_decimal_nonempty ds Hds Hne) as Hnil.
  destruct ds as [|d ds]; [done|].
  assert (isDecimalDigit d = true) as Hd by (cbn in Hds; by bool_prop).
  destruct (isDecimalDigit_plain d Hd) as (Hws & ? & ? & _).
  unfold parseInt. rewrite string_app_cons. cbn [trimStart].
  rewrite Hws, stripSign_plain by done. rewrite <-string_app_cons.
  unfold parseDigits. rewrite stripPrefix_stop, digitsPrefix_stop by done.
  unfold decimalValue. destruct (digitsPrefix 10 (String d ds)); [done|].
  f_equal. lia.
Qed.

(** ** The round trip through [toString] *)

Lemma pretty_N_decimal (x : N) :
  isDecimal (pretty x) = true ∧ pretty x ≠ "" ∧ decimalValue (pretty x) = Z.of_N x.
Proof.
  unfold pretty, pretty_N. case_decide as Hx; [by subst|].
  destruct (pretty_N_go_decimal x "" eq_refl) as (Hdec & _ & Hval).
  change (Z.of_nat (String.length "")) with 0 in Hval.
  change (decimalValue "") with 0 in Hval.
  rewrite Z.pow_0_r, Z.mul_1_r, Z.add_0_r in Hval.
  split_and!; [done| |done]. intros Hnil. rewrite Hnil in Hval.
  change (decimalValue "") with 0 in Hval. lia.
Qed.

(** What the table shows for an integer amount parses back to that
    amount: [parseInt (toString (Int z)) = Int z], for every integer [z]. *)
Lemma parseInt_toString (z : Z) : parseInt (toString (Int z)) = Int z.
Proof.
  destruct z as [|p|p]; [done| |]; cbn [toString pretty pretty_Z];
    destruct (pretty_N_decimal (N.pos p)) as (Hdec & Hne & Hval).
  - change (pretty p) with (pretty (N.pos p)).
    rewrite parseInt_decimal by done. by rewrite Hval.
  - change ("-" +:+ pretty p) with (String "-" (pretty (N.pos p))).
    unfold parseInt. cbn [trimStart].
    change (isStrWhiteSpaceChar "-") with false. cbn [stripSign].
    rewrite parseDigits_decimal by done. by rewrite Hval.
Qed.

(** [toString] never yields the empty string, so a displayed amount is
    never blank. *)
Lemma toString_nonempty (n : number) : toString n ≠ "".
Proof.
  destruct n as [|[|p|p]]; [done|done| |done]. apply (pretty_N_decimal (N.pos p)).
Qed.

(** [toString] is injective on integers: two amounts that display alike are
    equal. *)
Lemma toString_inj_Int (x y : Z) : toString (Int x) = toString (Int y) → x = y.
Proof. cbn. apply (inj pretty). Qed.

(** ** Truthiness and addition *)

(** A number is truthy exactly when it is a non-zero integer. *)
Lemma toBoolean_number (n : number) :
  toBoolean n = true ↔ ∃ z, n = Int z ∧ z ≠ 0.
Proof.
  destruct n as [|z]; cbn.
  - split; [done|]. by intros (? & ? & ?).
  - rewrite negb_true_iff, bool_decide_eq_false. split; [by exists z|].
    by intros (? & [= <-] & ?).
Qed.

Lemma toBoolean_NaN : toBoolean NaN = false.
Proof. done. Qed.

Lemma toBoolean_Int (z : Z) : toBoolean (Int z) = negb (bool_decide (z = 0)).
Proof. done. Qed.

Global Instance number_add_comm : Comm (=) number_add.
Proof. intros [|x] [|y]; cbn; f_equal; lia. Qed.

Global Instance number_add_assoc : Assoc (=) number_add.
Proof. intros [|x] [|y] [|z]; cbn; f_equal; lia. Qed.

Global Instance number_add_left_id : LeftId (=) (Int 0) number_add.
Proof. intros [|x]; cbn; f_equal; lia. Qed.

Global Instance number_add_right_id : RightId (=) (Int 0) number_add.
Proof. intros [|x]; cbn; f_equal; lia. Qed.

Global Instance number_add_left_absorb : LeftAbsorb (=) NaN number_add.
Proof. by intros [|x]. Qed.

Global Instance number_add_right_absorb : RightAbsorb (=) NaN number_add.
Proof. by intros [|x]. Qed.

(** ** The safe-integer bound *)

Lemma digitValue_nonneg c d : digitValue c = Some d → 0 ≤ d.
Proof.
  unfold digitValue. pose proof (N2Z.is_nonneg (N_of_ascii c)).
  repeat case_match; intros [= <-]; lia.
Qed.

Lemma radixDigit_range R c d : radixDigit R c = Some d → 0 ≤ d < R.
Proof.
  unfold radixDigit. destruct (digitValue c) as [d'|] eqn:Hd; [|done].
  apply digitValue_nonneg in Hd. case_match; intros [= <-]; lia.
Qed.

Lemma digitsPrefix_range R s : Forall (λ d, 0 ≤ d < R) (digitsPrefix R s).
Proof.
  induction s as [|c s IH]; cbn; [done|].
  destruct (radixDigit R c) eqn:Hc; [|done].
  constructor; [by eapply radixDigit_range|done].
Qed.

Lemma digitsPrefix_length R s : (length (digitsPrefix R s) ≤ String.length s)%nat.
Proof.
  induction s as [|c s IH]; cbn; [done|].
  destruct (radixDigit R c); cbn; lia.
Qed.

Lemma mathInt_bound R ds :
  0 < R → Forall (λ d, 0 ≤ d < R) ds →
  0 ≤ mathInt R ds < R ^ Z.of_nat (length ds).
Proof.
  intros HR. induction 1 as [|d ds [??] _ IH]; [done|].
  rewrite mathInt_cons. cbn [length]. rewrite Nat2Z.inj_succ, Z.pow_succ_r by lia.
  assert (0 < R ^ Z.of_nat (length ds)) by (apply Z.pow_pos_nonneg; lia). nia.
Qed.

(** The digits of a string of at most [n] code units denote less than
    [R ^ n]. *)
Lemma mathInt_digitsPrefix_bound R s (n : nat) :
  0 < R → (String.length s ≤ n)%nat →
  0 ≤ mathInt R (digitsPrefix R s) < R ^ Z.of_nat n.
Proof.
  intros HR Hn.
  destruct (mathInt_bound R (digitsPrefix R s) HR (digitsPrefix_range R s)).
  pose proof (digitsPrefix_length R s).
  assert (R ^ Z.of_nat (length (digitsPrefix R s)) ≤ R ^ Z.of_nat n)
    by (apply Z.pow_le_mono_r; lia).
  lia.
Qed.

Lemma trimStart_length s : (String.length (trimStart s) ≤ String.length s)%nat.
Proof. induction s as [|c s IH]; cbn; [done|]. case_match; cbn; lia. Qed.

Lemma stripSign_inv s sign s' :
  stripSign s = (sign, s') →
  (sign = 1 ∨ sign = -1) ∧ (String.length s' ≤ String.length s)%nat.
Proof.
  unfold stripSign. repeat case_match; intros [= <- <-]; cbn; split; auto; lia.
Qed.

Lemma stripPrefix_inv s R s' :
  stripPrefix s = (R, s') →
  (R = 10 ∧ s' = s) ∨ (R = 16 ∧ String.length s = (2 + String.length s')%nat).
Proof.
  unfold stripPrefix. repeat case_match; intros [= <- <-]; subst; cbn; auto.
Qed.

Lemma parseDigits_bound sign s z :
  (sign = 1 ∨ sign = -1) → (String.length s ≤ 15)%nat →
  parseDigits sign s = Int z → - MAX_SAFE_INTEGER ≤ z ≤ MAX_SAFE_INTEGER.
Proof.
  intros Hsign Hlen. unfold parseDigits.
  destruct (stripPrefix s) as [R s'] eqn:Hp.
  destruct (digitsPrefix R s') as [|d ds] eqn:Hds; [done|]. rewrite <-Hds.
  intros [= <-]. unfold MAX_SAFE_INTEGER.
  destruct (stripPrefix_inv _ _ _ Hp) as [[-> ->]|[-> Hs]].
  - pose proof (mathInt_digitsPrefix_bound 10 s 15). lia.
  - pose proof (mathInt_digitsPrefix_bound 16 s' 13). lia.
Qed.

(** An amount typed with at most 15 code units parses, when it parses
    at all, to an integer a double represents exactly: the model and the
    program agree on it. *)
Lemma parseInt_safe (s : string) (z : Z) :
  (String.length s ≤ 15)%nat → parseInt s = Int z →
  - MAX_SAFE_INTEGER ≤ z ≤ MAX_SAFE_INTEGER.
Proof.
  intros Hlen. unfold parseInt.
  destruct (stripSign (trimStart s)) as [sign s'] eqn:Hs.
  apply stripSign_inv in Hs as [Hsign Hlen'].
  pose proof (trimStart_length s). apply parseDigits_bound; [done|lia].
Qed.

#[export] Hint Rewrite toBoolean_Int toBoolean_NaN parseInt_decimal : js.
