(* ===== verification/JsArray.v ===== *)
(** * JavaScript arrays

    An array is a [list].  The module [Array] holds the three methods the
    component calls: [filter] (whose callback receives the element and its
    index), [map] (likewise) and [reduce] (with an initial value).  The
    callback's result is a [bool]: the caller applies [toBoolean] where the
    source returns another kind of value.  The lemmas relate [filter] by
    index to list deletion and [filter] by element to stdpp's [filter], and
    [reduce] to a left fold. *)

From S2P Require Import Prelude.

Module Array.

Section array.
Context {A : Type}.
Implicit Types (l k : list A) (x : A) (i j n : nat).

(** ** Definitions *)

(** The loop of [Array.prototype.filter], started at index [i]: the
    elements for which the callback answers true, in order. *)
Fixpoint filter_from (p : A → nat → bool) i l : list A :=
  match l with
  | [] => []
  | x :: l' =>
      if p x i then x :: filter_from p (S i) l' else filter_from p (S i) l'
  end.

(** [l.filter((x, i) => p x i)]. *)
Definition filter (p : A → nat → bool) l : list A := filter_from p 0 l.

(** [l.map((x, i) => f x i)]. *)
Definition map {B : Type} (f : A → nat → B) l : list B := imap (λ i x, f x i) l.

(** [l.reduce((acc, x) => f acc x, init)]. *)
Definition reduce {B : Type} (f : B → A → B) (init : B) l : B := foldl f init l.

(** ** [filter] *)

Lemma filter_from_shift p i l :
  filter_from p (S i) l = filter_from (λ x j, p x (S j)) i l.
Proof. revert i. induction l as [|x l IH]; intros i; cbn; [done|]. by rewrite IH. Qed.

Lemma filter_nil p : filter p [] = [].
Proof. done. Qed.

Lemma filter_cons p x l :
  filter p (x :: l) =
    if p x 0 then x :: filter (λ y j, p y (S j)) l else filter (λ y j, p y (S j)) l.
Proof. unfold filter. cbn. by rewrite filter_from_shift. Qed.

(** A callback that ignores the index gives stdpp's [filter]. *)
Lemma filter_elem (q : A → bool) l :
  filter (λ x _, q x) l = base.filter (λ x, q x = true) l.
Proof.
  induction l as [|x l IH]; [done|]. rewrite filter_cons, IH.
  destruct (q x) eqn:Hq.
  - by rewrite filter_cons_True.
  - rewrite filter_cons_False; [done|]. by rewrite Hq.
Qed.

Lemma filter_ext p q l :
  (∀ i x, l !! i = Some x → p x i = q x i) → filter p l = filter q l.
Proof.
  revert p q. induction l as [|x l IH]; intros p q Hpq; [done|].
  rewrite !filter_cons, (Hpq 0 x), (IH (λ y j, p y (S j)) (λ y j, q y (S j)))
    by (done || intros i y ?; by apply (Hpq (S i))).
  done.
Qed.

(** A callback that always answers true keeps the array. *)
Lemma filter_true p l : (∀ i x, l !! i = Some x → p x i = true) → filter p l = l.
Proof.
  revert p. induction l as [|x l IH]; intros p Hp; [done|].
  rewrite filter_cons, (Hp 0 x), IH by (done || intros i y ?; by apply (Hp (S i))).
  done.
Qed.

(** A callback that always answers false empties it. *)
Lemma filter_false p l : (∀ i x, l !! i = Some x → p x i = false) → filter p l = [].
Proof.
  revert p. induction l as [|x l IH]; intros p Hp; [done|].
  rewrite filter_cons, (Hp 0 x), IH by (done || intros i y ?; by apply (Hp (S i))).
  done.
Qed.

(** The result of [filter] is a sublist of the array: no element is added,
    duplicated or reordered. *)
Lemma filter_sublist p l : filter p l `sublist_of` l.
Proof.
  revert p. induction l as [|x l IH]; intros p; [done|]. rewrite filter_cons.
  destruct (p x 0); [apply sublist_skip|apply sublist_cons]; apply IH.
Qed.

Lemma filter_length p l : length (filter p l) ≤ length l.
Proof. apply sublist_length, filter_sublist. Qed.

Lemma filter_Forall (P : A → Prop) p l : Forall P l → Forall P (filter p l).
Proof. apply Forall_sublist, filter_sublist. Qed.

Lemma elem_of_filter_elem (q : A → bool) l x :
  x ∈ filter (λ y _, q y) l ↔ q x = true ∧ x ∈ l.
Proof. by rewrite filter_elem, list_elem_of_filter. Qed.

(** Keeping every index but [n] deletes the element at [n]: the filter of
    [onDelete] is list deletion. *)
Lemma filter_ne_index n l : filter (λ _ i, i !== n) l = delete n l.
Proof.
  revert n. induction l as [|x l IH]; intros n; [done|]. rewrite filter_cons.
  destruct n as [|n]; cbn.
  - apply filter_true. intros i y _. by case_decides.
  - f_equal. rewrite <-IH. apply filter_ext. intros i y _. by case_decides.
Qed.

(** ** [map] and [reduce] *)

Lemma map_length {B} (f : A → nat → B) l : length (map f l) = length l.
Proof. apply length_imap. Qed.

Lemma map_lookup {B} (f : A → nat → B) l i :
  map f l !! i = (λ x, f x i) <$> l !! i.
Proof. apply list_lookup_imap. Qed.

Lemma map_elem {B} (g : A → B) l : map (λ x _, g x) l = g <$> l.
Proof. apply imap_const. Qed.

(** A property of every result of the callback holds of the mapped array. *)
Lemma map_Forall {B} (f : A → nat → B) (Q : B → Prop) l :
  (∀ i x, l !! i = Some x → Q (f x i)) → Forall Q (map f l).
Proof.
  intros Hf. apply Forall_lookup. intros i y. rewrite map_lookup.
  intros (x & Hx & ->)%fmap_Some. by apply Hf.
Qed.

Lemma reduce_nil {B} (f : B → A → B) init : reduce f init [] = init.
Proof. done. Qed.

Lemma reduce_cons {B} (f : B → A → B) init x l :
  reduce f init (x :: l) = reduce f (f init x) l.
Proof. done. Qed.

Lemma reduce_app {B} (f : B → A → B) init l k :
  reduce f init (l ++ k) = reduce f (reduce f init l) k.
Proof. apply foldl_app. Qed.

(** Summing an integer field with [reduce] gives the list's sum. *)
Lemma reduce_Zadd (f : A → Z) (a : Z) l :
  reduce (λ acc x, acc + f x)%Z a l = (a + Zsum f l)%Z.
Proof. apply foldl_Zadd. Qed.

End array.

End Array.

#[export] Hint Rewrite @Array.filter_nil @Array.map_length @Array.reduce_nil
  @Array.reduce_cons @Array.filter_ne_index : js.
#[export] Hint Resolve Array.filter_Forall Array.filter_sublist : js.
