(* ===== verification/Resolver.v ===== *)
(** * The form hook and its contract with a validation library

    [useForm({ resolver })] of react-hook-form keeps the values of the
    registered inputs, the [errors] object and the flag [isSubmitted], and
    delegates validation to a resolver: a function from the values to
    either the validated values or a map from field names to messages.
    The class [Resolver] states that contract with the laws the hook relies
    on; [handleSubmit], [onChange] and [isValid] are defined, and their
    properties proved, against the class alone.  The zod schema of the
    component is one instance ([Schema]).

    The hook is used with its default modes: nothing is validated before
    the first submission ([mode: "onSubmit"]), and after it the field that
    is edited is validated again at each change
    ([reValidateMode: "onChange"]).

    The [errors] object is a [gmap] from field names to messages:
    [errors.description] is [errors !! "description"]. *)

From S2P Require Import Prelude.
From stdpp Require Import gmap.

(** ** The contract *)

(** What a resolver answers: the validated values, or the errors by field. *)
Inductive ResolverResult (V : Type) :=
  | Valid (values : V)
  | Invalid (errors : gmap string string).
Global Arguments Valid {_} _.
Global Arguments Invalid {_} _.

(** A resolver for forms whose values have type [V], over the fields
    [resolver_fields].  An invalid answer names at least one field (the hook
    tests the emptiness of [errors] to decide), names only fields of the
    form, and a valid answer returns the values it was given. *)
Class Resolver (V : Type) := {
  resolve : V → ResolverResult V;
  resolver_fields : list string;
  resolve_invalid_nonempty v e : resolve v = Invalid e → e ≠ ∅;
  resolve_invalid_fields v e k : resolve v = Invalid e → is_Some (e !! k) → k ∈ resolver_fields;
  resolve_valid_values v v' : resolve v = Valid v' → v' = v;
}.
Global Hint Mode Resolver ! : typeclass_instances.

(** ** The hook's state and operations *)

(** The state [useForm] keeps: the current values of the registered
    inputs, [formState.errors] and [formState.isSubmitted]. *)
Record UseForm (V : Type) := mkUseForm {
  values : V;
  errors : gmap string string;
  isSubmitted : bool;
}.
Global Arguments mkUseForm {_} _ _ _.
Global Arguments values {_} _.
Global Arguments errors {_} _.
Global Arguments isSubmitted {_} _.

Global Instance UseForm_eq_dec {V : Type} `{!EqDecision V} : EqDecision (UseForm V).
Proof. solve_decision. Defined.

Section hook.
Context {V : Type} `{!Resolver V}.
Implicit Types (f : UseForm V) (v : V).

(** [useForm(...)] on the first render: the inputs' initial values, no
    error, not submitted. *)
Definition useForm (defaults : V) : UseForm V := mkUseForm defaults ∅ false.

(** The errors the resolver reports for some values, none when it accepts
    them. *)
Definition resolverErrors v : gmap string string :=
  match resolve v with
  | Valid _ => ∅
  | Invalid e => e
  end.

(** [formState.isValid]: whether the current values pass the resolver. *)
Definition isValid f : bool :=
  match resolve (values f) with
  | Valid _ => true
  | Invalid _ => false
  end.

(** The validation of one field after a change: the error the resolver
    reports for the field replaces the one displayed, and the error
    displayed is removed when the resolver reports none. *)
Definition revalidate (name : string) v (errs : gmap string string) :
    gmap string string :=
  match resolverErrors v !! name with
  | Some message => <[name := message]> errs
  | None => delete name errs
  end.

(** The [onChange] that [register(name)] attaches to an input: the value
    of the input is stored; once the form has been submitted, the field is
    validated again. *)
Definition onChange (name : string) (set : V → V) f : UseForm V :=
  let v := set (values f) in
  mkUseForm v (if isSubmitted f then revalidate name v (errors f) else errors f)
    (isSubmitted f).

(** [handleSubmit(onValid)], run on a submit event in a component whose
    own state has type [S]: the resolver is run on the current values; when
    it accepts, the errors are cleared and [onValid] is called with the
    validated values; when it rejects, the errors are stored and [onValid]
    is not called.  Either way the form counts as submitted. *)
Definition handleSubmit {S : Type} (onValid : V → S → S) f (st : S) : UseForm V * S :=
  match resolve (values f) with
  | Valid v => (mkUseForm (values f) ∅ true, onValid v st)
  | Invalid e => (mkUseForm (values f) e true, st)
  end.

(** ** Properties of the hook, for any resolver *)

Lemma isValid_true f : isValid f = true ↔ resolve (values f) = Valid (values f).
Proof.
  unfold isValid. destruct (resolve (values f)) as [v|e] eqn:Hr; [|done].
  by rewrite (resolve_valid_values _ _ Hr).
Qed.

Lemma isValid_false f : isValid f = false ↔ ∃ e, resolve (values f) = Invalid e.
Proof.
  unfold isValid. destruct (resolve (values f)) as [v|e]; [|split; eauto].
  split; [done|]. by intros [? ?].
Qed.

Lemma handleSubmit_valid {S} (onValid : V → S → S) f st :
  isValid f = true →
  handleSubmit onValid f st = (mkUseForm (values f) ∅ true, onValid (values f) st).
Proof. intros Hv%isValid_true. unfold handleSubmit. by rewrite Hv. Qed.

Lemma handleSubmit_invalid {S} (onValid : V → S → S) f st :
  isValid f = false →
  ∃ e, resolve (values f) = Invalid e ∧ e ≠ ∅ ∧
       handleSubmit onValid f st = (mkUseForm (values f) e true, st).
Proof.
  intros [e He]%isValid_false. exists e. unfold handleSubmit. rewrite He.
  eauto using resolve_invalid_nonempty.
Qed.

(** Submission gates the callback: the component's state changes only
    through [onValid], and only when the values are valid. *)
Lemma handleSubmit_state {S} (onValid : V → S → S) f st :
  (handleSubmit onValid f st).2 =
    if isValid f then onValid (values f) st else st.
Proof.
  destruct (isValid f) eqn:Hv.
  - by rewrite handleSubmit_valid.
  - by destruct (handleSubmit_invalid onValid f st Hv) as (e & _ & _ & ->).
Qed.

(** After a submission the errors are empty exactly when the values were
    valid. *)
Lemma handleSubmit_errors {S} (onValid : V → S → S) f st :
  errors (handleSubmit onValid f st).1 = ∅ ↔ isValid f = true.
Proof.
  destruct (isValid f) eqn:Hv.
  - by rewrite handleSubmit_valid.
  - destruct (handleSubmit_invalid onValid f st Hv) as (e & _ & ? & ->). done.
Qed.

(** A submission never changes the values of the inputs: the form is not
    reset. *)
Lemma handleSubmit_values {S} (onValid : V → S → S) f st :
  values (handleSubmit onValid f st).1 = values f.
Proof. unfold handleSubmit. by destruct (resolve (values f)). Qed.

(** The errors shown after a submission name fields of the form only. *)
Lemma handleSubmit_error_fields {S} (onValid : V → S → S) f st k :
  is_Some (errors (handleSubmit onValid f st).1 !! k) →
  k ∈ resolver_fields (V := V).
Proof.
  unfold handleSubmit. destruct (resolve (values f)) as [v|e] eqn:Hr; cbn.
  - rewrite lookup_empty. by intros [? ?].
  - by apply (resolve_invalid_fields (values f)).
Qed.

Lemma handleSubmit_isSubmitted {S} (onValid : V → S → S) f st :
  isSubmitted (handleSubmit onValid f st).1 = true.
Proof. unfold handleSubmit. by destruct (resolve (values f)). Qed.

(** After a submission the errors are those the resolver reports for the
    values. *)
Lemma handleSubmit_resolverErrors {S} (onValid : V → S → S) f st :
  errors (handleSubmit onValid f st).1 = resolverErrors (values f).
Proof. unfold handleSubmit, resolverErrors. by destruct (resolve (values f)). Qed.

Lemma resolverErrors_empty v : resolverErrors v = ∅ ↔ resolve v = Valid v.
Proof.
  unfold resolverErrors. destruct (resolve v) as [v'|e] eqn:Hr.
  - by rewrite (resolve_valid_values _ _ Hr).
  - split; [|done]. intros ->. by apply resolve_invalid_nonempty in Hr.
Qed.

(** The validation of a field changes the error of that field only. *)
Lemma revalidate_lookup name v errs k :
  revalidate name v errs !! k =
    if decide (k = name) then resolverErrors v !! name else errs !! k.
Proof.
  unfold revalidate. destruct (resolverErrors v !! name) as [m|] eqn:Hm.
  - case_decide as Hk; [subst; by rewrite lookup_insert_eq|by rewrite lookup_insert_ne].
  - case_decide as Hk; [subst; by rewrite lookup_delete_eq|by rewrite lookup_delete_ne].
Qed.

(** Before the first submission a change validates nothing. *)
Lemma onChange_errors name (set : V → V) f :
  isSubmitted f = false → errors (onChange name set f) = errors f.
Proof. unfold onChange. by intros ->. Qed.

(** After it, a change validates the field that changed. *)
Lemma onChange_errors_lookup name (set : V → V) f k :
  isSubmitted f = true →
  errors (onChange name set f) !! k =
    if decide (k = name) then resolverErrors (set (values f)) !! name
    else errors f !! k.
Proof. unfold onChange. intros ->. apply revalidate_lookup. Qed.

Lemma onChange_values name (set : V → V) f : values (onChange name set f) = set (values f).
Proof. done. Qed.

Lemma onChange_isSubmitted name (set : V → V) f :
  isSubmitted (onChange name set f) = isSubmitted f.
Proof. done. Qed.

End hook.

#[export] Hint Rewrite @handleSubmit_values @handleSubmit_state
  @handleSubmit_isSubmitted @onChange_values @onChange_isSubmitted : js.
