(* ===== verification/Zod.v ===== *)
(** * The validation library: zod string schemas, objects and the resolver

    What the component uses of zod and of [@hookform/resolvers/zod]:
    [z.string()] with the chained checks [.min(n, message)] and
    [.refine(f, message)], [z.object({...})] over string fields,
    [safeParse], and [zodResolver], which turns the issues of a failed parse
    into the hook's [errors] object (the first issue of a field wins).
    [zod_Resolver] shows that [zodResolver schema] satisfies the contract
    [Resolver] for every object schema. *)

From S2P Require Import Prelude Resolver.
From stdpp Require Import gmap.

(** ** Definitions *)

(** One check of a string schema: the test and the message of its issue. *)
Record check := mkCheck {
  check_ok : string → bool;
  check_message : string;
}.

(** [z.string()] followed by its checks, in the order they were chained. *)
Abbreviation ZodString := (list check).

(** [z.string()]. *)
Definition z_string : ZodString := [].

(** [s.min(n, message)]: at least [n] code units. *)
Definition z_min (n : nat) (message : string) (s : ZodString) : ZodString :=
  s ++ [mkCheck (λ v, n <=? String.length v) message].

(** [s.refine(f, message)]: the result of [f], whatever its type, must be
    truthy. *)
Definition z_refine {R : Type} `{!ToBoolean R} (f : string → R) (message : string)
    (s : ZodString) : ZodString :=
  s ++ [mkCheck (λ v, toBoolean (f v)) message].

(** The messages of the checks a value fails, in order. *)
Definition string_issues (s : ZodString) (v : string) : list string :=
  check_message <$> filter (λ c, check_ok c v = false) s.

(** An issue of a parse: the field it is about and its message. *)
Record issue := mkIssue {
  path : string;
  message : string;
}.

(** One property of [z.object({...})] over values of type [T]: its key, the
    projection that reads it, and its schema. *)
Record ZodField (T : Type) := mkField {
  key : string;
  get : T → string;
  field_schema : ZodString;
}.
Global Arguments mkField {_} _ _ _.
Global Arguments key {_} _.
Global Arguments get {_} _ _.
Global Arguments field_schema {_} _.

(** [z.object({...})]: the properties in the order they are written. *)
Abbreviation ZodObject T := (list (ZodField T)).

(** The result of [safeParse]. *)
Inductive SafeParseReturn (T : Type) :=
  | Success (data : T)
  | Failure (issues : list issue).
Global Arguments Success {_} _.
Global Arguments Failure {_} _.

Section zod.
Context {T : Type}.
Implicit Types (o : ZodObject T) (v : T) (f : ZodField T) (k : string).
Implicit Types (iss : list issue) (errs : gmap string string).

(** The issues of an object: those of each property, in order. *)
Definition object_issues o v : list issue :=
  o ≫= λ f, mkIssue (key f) <$> string_issues (field_schema f) (get f v).

(** [schema.safeParse(v)]. *)
Definition safeParse o v : SafeParseReturn T :=
  match object_issues o v with
  | [] => Success v
  | iss => Failure iss
  end.

(** The loop that files the issues in the [errors] object: an issue is
    recorded unless its field already has one. *)
Definition parseErrorSchema iss : gmap string string :=
  foldl (λ errs i, if errs !! path i is Some _ then errs
                   else <[path i := message i]> errs) ∅ iss.

(** [zodResolver(schema)], applied to the form's values. *)
Definition zodResolver o v : ResolverResult T :=
  match safeParse o v with
  | Success data => Valid data
  | Failure iss => Invalid (parseErrorSchema iss)
  end.

(** ** String schemas *)

Lemma string_issues_nil (s : ZodString) (x : string) :
  string_issues s x = [] ↔ Forall (λ c, check_ok c x = true) s.
Proof.
  unfold string_issues. rewrite fmap_nil_iff. induction s as [|c s IH]; [done|].
  rewrite filter_cons, Forall_cons. destruct (check_ok c x) eqn:Hc.
  - rewrite decide_False by done. rewrite IH. by intuition.
  - rewrite decide_True by done. split; [done|by intros [? _]].
Qed.

Lemma string_issues_app (s1 s2 : ZodString) (x : string) :
  string_issues (s1 ++ s2) x = string_issues s1 x ++ string_issues s2 x.
Proof. unfold string_issues. by rewrite filter_app, fmap_app. Qed.

Lemma string_issues_min n msg (s : ZodString) (x : string) :
  string_issues (z_min n msg s) x =
    string_issues s x ++ if decide (n ≤ String.length x) then [] else [msg].
Proof.
  unfold z_min. rewrite string_issues_app. f_equal. unfold string_issues.
  rewrite filter_cons, filter_nil. cbn.
  destruct (Nat.leb_spec n (String.length x)); repeat case_decide; (done || lia).
Qed.

Lemma string_issues_refine {R} `{!ToBoolean R} (g : string → R) msg
    (s : ZodString) (x : string) :
  string_issues (z_refine g msg s) x =
    string_issues s x ++ if toBoolean (g x) then [] else [msg].
Proof.
  unfold z_refine. rewrite string_issues_app. f_equal. unfold string_issues.
  rewrite filter_cons, filter_nil. cbn. destruct (toBoolean (g x)); by case_decide.
Qed.

(** ** Objects *)

Lemma object_issues_nil o v :
  object_issues o v = [] ↔
  Forall (λ f, string_issues (field_schema f) (get f v) = []) o.
Proof.
  unfold object_issues. induction o as [|f o IH]; [done|].
  rewrite bind_cons, Forall_cons, app_nil, fmap_nil_iff, IH. done.
Qed.

Lemma object_issues_path o v i : i ∈ object_issues o v → path i ∈ key <$> o.
Proof.
  unfold object_issues. rewrite list_elem_of_bind.
  intros (f & (m & -> & _)%list_elem_of_fmap & Hf).
  by apply (list_elem_of_fmap_2 key).
Qed.

Lemma safeParse_Success o v data :
  safeParse o v = Success data ↔ object_issues o v = [] ∧ data = v.
Proof.
  unfold safeParse. destruct (object_issues o v); [|split; [done|by intros [? _]]].
  split; [by intros [= <-]|by intros [_ ->]].
Qed.

Lemma safeParse_Failure o v iss :
  safeParse o v = Failure iss ↔ object_issues o v = iss ∧ iss ≠ [].
Proof.
  unfold safeParse. destruct (object_issues o v) as [|i iss'].
  - split; [done|]. by intros [<- ?].
  - split; [by intros [= <-]|by intros [-> _]].
Qed.

(** ** The errors object *)

(** The loop, from any accumulator: a field keeps the error it has, and
    otherwise gets the message of its first issue. *)
Lemma parseErrorSchema_foldl iss errs k :
  foldl (λ errs i, if errs !! path i is Some _ then errs
                   else <[path i := message i]> errs) errs iss !! k =
  match errs !! k with
  | Some m => Some m
  | None => message <$> head (filter (λ i, path i = k) iss)
  end.
Proof.
  revert errs. induction iss as [|i iss IH]; intros errs.
  { cbn. by destruct (errs !! k). }
  cbn [foldl]. rewrite IH, filter_cons. destruct (errs !! path i) as [m|] eqn:Hi.
  - destruct (errs !! k) eqn:Hk; [done|].
    by rewrite decide_False by congruence.
  - destruct (decide (path i = k)) as [<-|Hne].
    + by rewrite lookup_insert_eq, Hi.
    + by rewrite lookup_insert_ne by done.
Qed.

(** The error of a field is the message of the first issue about it. *)
Lemma parseErrorSchema_lookup iss k :
  parseErrorSchema iss !! k = message <$> head (filter (λ i, path i = k) iss).
Proof. unfold parseErrorSchema. by rewrite parseErrorSchema_foldl, lookup_empty. Qed.

Lemma parseErrorSchema_nonempty iss : iss ≠ [] → parseErrorSchema iss ≠ ∅.
Proof.
  destruct iss as [|i iss]; [done|]. intros _ Hempty.
  apply (f_equal (.!! path i)) in Hempty.
  rewrite parseErrorSchema_lookup, lookup_empty, filter_cons_True in Hempty; done.
Qed.

Lemma parseErrorSchema_is_Some iss k :
  is_Some (parseErrorSchema iss !! k) → k ∈ path <$> iss.
Proof.
  rewrite parseErrorSchema_lookup, fmap_is_Some. intros [i Hi].
  apply head_Some_elem_of, list_elem_of_filter in Hi as [<- Hi].
  by apply list_elem_of_fmap_2.
Qed.

End zod.

(** ** [zodResolver schema] is a resolver *)

Global Program Instance zod_Resolver {T : Type} (o : ZodObject T) : Resolver T := {|
  resolve := zodResolver o;
  resolver_fields := key <$> o;
|}.
Next Obligation.
  intros T o v e. unfold zodResolver.
  destruct (safeParse o v) as [d|iss] eqn:Hp; [done|]. intros [= <-].
  apply safeParse_Failure in Hp as [_ ?]. by apply parseErrorSchema_nonempty.
Qed.
Next Obligation.
  intros T o v e k. unfold zodResolver.
  destruct (safeParse o v) as [d|iss] eqn:Hp; [done|]. intros [= <-].
  apply safeParse_Failure in Hp as [<- _].
  intros (i & -> & Hi)%parseErrorSchema_is_Some%list_elem_of_fmap.
  by eapply object_issues_path.
Qed.
Next Obligation.
  intros T o v v'. unfold zodResolver.
  destruct (safeParse o v) as [d|iss] eqn:Hp; [|done]. intros [= <-].
  by apply safeParse_Success in Hp as [_ ->].
Qed.

#[export] Hint Rewrite string_issues_min @string_issues_refine
  string_issues_app : js.
