(* ===== verification/Schema.v ===== *)
(** * The schema of the form ([Form.tsx], lines 6-14 and 22)

    [schema] is the [z.object] of the three fields, [FormData] the type zod
    infers from it (three strings).  The file characterises what the schema
    accepts ([validFormData]), which message each failing field gets
    ([fieldError]), which amounts pass the refinement by [parseInt], and
    gives the resolver the form hook is created with,
    [zodResolver(schema)]. *)

From S2P Require Import Prelude JsString JsNumber Resolver Zod.
From stdpp Require Import gmap.
From Stdlib Require Import Ascii.

(** ** Definitions *)

(** [type FormData = z.infer<typeof schema>]: what the three inputs hold. *)
Module FormData.
Record t := mk {
  description : string;
  amount : string;
  category : string;
}.
End FormData.
Abbreviation FormData := FormData.t.

Global Instance FormData_eq_dec : EqDecision FormData.
Proof. solve_decision. Defined.

(** Lines 7-9. *)
Definition description_schema : ZodString :=
  z_min 3 "Description must be at least 3 characters" z_string.

(** Lines 10-12: the refinement is [(value) => parseInt(value)], and its
    result is tested for truthiness. *)
Definition amount_schema : ZodString :=
  z_refine (λ value, parseInt value) "Amount is required" z_string.

(** Line 13. *)
Definition category_schema : ZodString :=
  z_min 1 "Category is required" z_string.

(** Lines 6-14: [z.object({ description, amount, category })]. *)
Definition schema : ZodObject FormData := [
  mkField "description" FormData.description description_schema;
  mkField "amount" FormData.amount amount_schema;
  mkField "category" FormData.category category_schema
].

(** Line 48: the resolver [useForm] is given. *)
Global Instance schema_Resolver : Resolver FormData := zod_Resolver schema.

(** What the schema accepts, field by field. *)
Definition validDescription (s : string) : Prop := 3 ≤ String.length s.
Definition validAmount (s : string) : Prop := toBoolean (parseInt s) = true.
Definition validCategory (s : string) : Prop := 1 ≤ String.length s.

Definition validFormData (data : FormData) : Prop :=
  validDescription (FormData.description data) ∧
  validAmount (FormData.amount data) ∧
  validCategory (FormData.category data).

Global Instance validFormData_dec data : Decision (validFormData data).
Proof. unfold validFormData, validDescription, validAmount, validCategory. apply _. Defined.

(** The message of a field when it fails, none when it passes. *)
Definition errorIf (ok : Prop) `{!Decision ok} (message : string) : option string :=
  if decide ok then None else Some message.

(** The message the schema gives for a key: that of the field of that
    name when its value fails, none for another key. *)
Definition fieldError (data : FormData) (k : string) : option string :=
  if k === "description"
  then errorIf (validDescription (FormData.description data))
         "Description must be at least 3 characters"
  else if k === "amount"
  then errorIf (validAmount (FormData.amount data)) "Amount is required"
  else if k === "category"
  then errorIf (validCategory (FormData.category data)) "Category is required"
  else None.

(** ** The issues of the schema *)

Lemma description_issues (s : string) :
  string_issues description_schema s =
    if decide (validDescription s) then []
    else ["Description must be at least 3 characters"].
Proof. unfold description_schema. by rewrite string_issues_min. Qed.

Lemma amount_issues (s : string) :
  string_issues amount_schema s =
    if decide (validAmount s) then [] else ["Amount is required"].
Proof.
  unfold amount_schema, validAmount. rewrite string_issues_refine. cbn.
  destruct (toBoolean (parseInt s)); by case_decide.
Qed.

Lemma category_issues (s : string) :
  string_issues category_schema s =
    if decide (validCategory s) then [] else ["Category is required"].
Proof. unfold category_schema. by rewrite string_issues_min. Qed.

(** The issues of a parse, in the order of the fields. *)
Lemma schema_issues (data : FormData) :
  object_issues schema data =
    (if decide (validDescription (FormData.description data)) then []
     else [mkIssue "description" "Description must be at least 3 characters"]) ++
    (if decide (validAmount (FormData.amount data)) then []
     else [mkIssue "amount" "Amount is required"]) ++
    (if decide (validCategory (FormData.category data)) then []
     else [mkIssue "category" "Category is required"]).
Proof.
  unfold object_issues, schema. cbn [mbind list_bind foldr app key get field_schema].
  rewrite description_issues, amount_issues, category_issues, app_nil_r.
  by repeat case_decide.
Qed.

Lemma schema_issues_nil (data : FormData) :
  object_issues schema data = [] ↔ validFormData data.
Proof.
  rewrite schema_issues. unfold validFormData.
  repeat case_decide; cbn; split; (done || tauto).
Qed.

(** An amount is valid exactly when [parseInt] reads a non-zero integer
    from it. *)
Lemma validAmount_iff (s : string) :
  validAmount s ↔ ∃ z, parseInt s = Int z ∧ z ≠ 0%Z.
Proof. apply toBoolean_number. Qed.

(** ** What the resolver answers *)

Lemma resolve_schema (data : FormData) : resolve data = zodResolver schema data.
Proof. done. Qed.

Lemma resolve_valid (data : FormData) :
  validFormData data → resolve data = Valid data.
Proof.
  intros Hv%schema_issues_nil. rewrite resolve_schema.
  unfold zodResolver, safeParse. by rewrite Hv.
Qed.

Lemma resolve_invalid (data : FormData) :
  ¬ validFormData data →
  resolve data = Invalid (parseErrorSchema (object_issues schema data)).
Proof.
  intros Hv. rewrite resolve_schema. unfold zodResolver, safeParse.
  destruct (object_issues schema data) eqn:Hi; [|done].
  by apply schema_issues_nil in Hi.
Qed.

(** The errors of an invalid form, field by field. *)
Lemma schema_errors_lookup (data : FormData) :
  let errs := parseErrorSchema (object_issues schema data) in
  errs !! "description" =
    errorIf (validDescription (FormData.description data))
      "Description must be at least 3 characters" ∧
  errs !! "amount" =
    errorIf (validAmount (FormData.amount data)) "Amount is required" ∧
  errs !! "category" =
    errorIf (validCategory (FormData.category data)) "Category is required".
Proof.
  cbn zeta. rewrite !parseErrorSchema_lookup, schema_issues. unfold errorIf.
  by repeat case_decide.
Qed.

(** The errors of the resolver, key by key. *)
Lemma schema_resolverErrors (data : FormData) (k : string) :
  resolverErrors data !! k = fieldError data k.
Proof.
  unfold resolverErrors. destruct (decide (validFormData data)) as [Hv|Hv].
  - rewrite resolve_valid, lookup_empty by done. destruct Hv as (? & ? & ?).
    unfold fieldError, errorIf. rewrite !decide_True by done.
    by repeat case_bool_decide.
  - rewrite resolve_invalid, parseErrorSchema_lookup, schema_issues by done.
    unfold fieldError, errorIf. rewrite !filter_app.
    repeat case_bool_decide; subst; repeat case_decide;
      rewrite ?filter_cons, ?filter_nil; cbn [path]; by repeat case_decide.
Qed.

(** ** Main theorems *)

(** C18 (functional) The resolver of the form accepts the values exactly
    when the description has at least three code units, [parseInt] reads a
    non-zero integer from the amount, and the category is not empty; the
    values it returns are the values it was given. *)
Theorem schema_accepts (data : FormData) :
  zodResolver schema data = Valid data ↔
  3 ≤ String.length (FormData.description data) ∧
  (∃ z, parseInt (FormData.amount data) = Int z ∧ z ≠ 0%Z) ∧
  1 ≤ String.length (FormData.category data).
Proof.
  rewrite <-validAmount_iff, <-resolve_schema. split; [|apply resolve_valid].
  intros Hr. destruct (decide (validFormData data)) as [|Hv]; [done|].
  by rewrite resolve_invalid in Hr.
Qed.

(** C19 (functional) The amount typed as the decimal representation of an
    integer passes the schema exactly when the integer is not zero:
    ["0"] is rejected, and a negative amount is accepted. *)
Theorem amount_toString (z : Z) :
  string_issues amount_schema (toString (Int z)) = [] ↔ z ≠ 0%Z.
Proof.
  rewrite amount_issues.
  assert (validAmount (toString (Int z)) ↔ z ≠ 0%Z) as Hv.
  { rewrite validAmount_iff, parseInt_toString.
    split; [by intros (? & [= <-] & ?)|eauto]. }
  case_decide; split; (done || tauto).
Qed.

(** C20 (functional) An amount with a fraction or an exponent is accepted
    for the digits before it: [parseInt] reads them and ignores the rest,
    so the amount passes exactly when their value is not zero (["1.9"]
    passes as 1, ["0.5"] is rejected). *)
Theorem amount_truncated (ds : string) (c : ascii) (rest : string) :
  isDecimal ds = true → ds ≠ "" →
  radixDigit 10 c = None → c ≠ "x"%char → c ≠ "X"%char →
  parseInt (ds +:+ String c rest) = Int (decimalValue ds) ∧
  (string_issues amount_schema (ds +:+ String c rest) = [] ↔ decimalValue ds ≠ 0%Z).
Proof.
  intros Hds Hne Hc ??. pose proof (parseInt_stop ds c rest Hds Hne Hc) as Hp.
  split; [by apply Hp|]. rewrite amount_issues.
  assert (validAmount (ds +:+ String c rest) ↔ decimalValue ds ≠ 0%Z) as Hv.
  { rewrite validAmount_iff, Hp by done. split; [by intros (? & [= <-] & ?)|eauto]. }
  case_decide; split; (done || tauto).
Qed.

Lemma amount_truncated_witness :
  parseInt ("1" +:+ String "." "9") = Int (decimalValue "1") ∧
  (string_issues amount_schema ("1" +:+ String "." "9") = [] ↔ decimalValue "1" ≠ 0%Z).
Proof. by apply (amount_truncated "1" "." "9"). Defined.
