(* ===== verification/Form.v ===== *)
(** * The component [Form]: its state and its handlers ([Form.tsx], 16-59)

    [state] holds the two [useState] cells, [rows] and [selected], and the
    state of the form hook.  Each handler of the component is a function on
    [state] that performs the setter call of the source: [onDelete],
    [handleSelected] and [onSubmit]; [filterCategories] reads the state,
    [submit] is [handleSubmit(onSubmit)], the handler the form element is
    given, and [input] is the [onChange] of a registered input.

    The lemmas give the functional behaviour of each handler, the view
    after a deletion, the preservation of [validRow] (what a row gets from
    the schema) and of [formInvariant] (the messages displayed are the
    schema's verdict on the inputs), and the equivalence [≡] of states that
    show the same table, which the handlers respect. *)

From S2P Require Import Prelude JsString JsNumber JsArray Resolver Zod Schema.
From stdpp Require Import gmap.

(** ** Data *)

(** [interface TableRow] (lines 16-20). *)
Module TableRow.
Record t := mk {
  description : string;
  amount : number;
  category : string;
}.
End TableRow.
Abbreviation TableRow := TableRow.t.

Global Instance TableRow_eq_dec : EqDecision TableRow.
Proof. solve_decision. Defined.

(** An object is truthy. *)
Global Instance TableRow_ToBoolean : ToBoolean TableRow := λ _, true.

(** The component's state: [rows] (line 25), [selected] (line 26) and the
    form hook (lines 44-48). *)
Record state := mkState {
  rows : list TableRow;
  selected : string;
  form : UseForm FormData;
}.

Global Instance state_eq_dec : EqDecision state.
Proof. solve_decision. Defined.

(** The setters. *)
Definition setRows (rows' : list TableRow) (st : state) : state :=
  mkState rows' (selected st) (form st).

Definition setSelected (selected' : string) (st : state) : state :=
  mkState (rows st) selected' (form st).

Definition setForm (form' : UseForm FormData) (st : state) : state :=
  mkState (rows st) (selected st) form'.

(** The state of the first render: [useState([])], [useState("")] and a
    form whose inputs are empty. *)
Definition initial : state :=
  mkState [] "" (useForm (FormData.mk "" "" "")).

(** ** Handlers *)

(** Lines 28-30: [setRows(rows.filter((_, i) => i !== index))]. *)
Definition onDelete (index : nat) (st : state) : state :=
  setRows (Array.filter (λ _ i, i !== index) (rows st)) st.

(** Lines 33-37, the callback of the filter: the item itself (truthy)
    when the selection is ["all"], and otherwise whether the lower-cased
    category includes the lower-cased selection. *)
Definition keepRow (selected : string) (item : TableRow) : bool :=
  if selected === "all" then toBoolean item
  else includes (toLowerCase (TableRow.category item)) (toLowerCase selected).

(** Lines 32-38. *)
Definition filterCategories (st : state) : list TableRow :=
  Array.filter (λ item _, keepRow (selected st) item) (rows st).

(** Lines 40-42: [setSelected(e.target.value)]; [value] is the value of
    the event's target. *)
Definition handleSelected (value : string) (st : state) : state :=
  setSelected value st.

(** The row [onSubmit] builds from the validated data (lines 53-57). *)
Definition toRow (data : FormData) : TableRow :=
  TableRow.mk (FormData.description data) (parseInt (FormData.amount data))
    (FormData.category data).

(** Lines 50-59: [setRows([...rows, {...}])]. *)
Definition onSubmit (data : FormData) (st : state) : state :=
  setRows (rows st ++ [toRow data]) st.

(** Line 63, [handleSubmit(onSubmit)]: the hook validates the current
    values and calls [onSubmit] when they are valid. *)
Definition submit (st : state) : state :=
  let '(form', st') := handleSubmit onSubmit (form st) st in setForm form' st'.

(** The [onChange] of a registered input (lines 70, 81, 91): the hook stores
    the input's new value in the field of that name. *)
Definition setField (name value : string) (data : FormData) : FormData :=
  if name === "description"
  then FormData.mk value (FormData.amount data) (FormData.category data)
  else if name === "amount"
  then FormData.mk (FormData.description data) value (FormData.category data)
  else if name === "category"
  then FormData.mk (FormData.description data) (FormData.amount data) value
  else data.

Definition input (name value : string) (st : state) : state :=
  setForm (onChange name (setField name value) (form st)) st.

(** The number of rows displayed above the row at [index] of the list. *)
Definition shownBefore (st : state) (index : nat) : nat :=
  length (filterCategories (setRows (take index (rows st)) st)).

(** Two states show the same table when they have the same rows and the
    same selection; their forms may differ. *)
Global Instance state_equiv : Equiv state := λ st1 st2,
  rows st1 = rows st2 ∧ selected st1 = selected st2.

(** What the form displays: once the form has been submitted, the errors
    are the schema's verdict on the current values; before, there is
    none. *)
Definition formInvariant (st : state) : Prop :=
  errors (form st) =
    if isSubmitted (form st) then resolverErrors (values (form st)) else ∅.

(** ** What a row of the list satisfies *)

(** A row that came out of a valid submission: a description of at least
    three code units, an amount that is a non-zero integer, a category that
    is not empty. *)
Definition validRow (r : TableRow) : Prop :=
  3 ≤ String.length (TableRow.description r) ∧
  (∃ z, TableRow.amount r = Int z ∧ z ≠ 0%Z) ∧
  1 ≤ String.length (TableRow.category r).

(** ** [onDelete] *)

Lemma onDelete_rows index st : rows (onDelete index st) = delete index (rows st).
Proof. unfold onDelete. cbn. apply Array.filter_ne_index. Qed.

Lemma onDelete_selected index st : selected (onDelete index st) = selected st.
Proof. done. Qed.

Lemma onDelete_form index st : form (onDelete index st) = form st.
Proof. done. Qed.

Lemma onDelete_length index st :
  index < length (rows st) →
  length (rows (onDelete index st)) = pred (length (rows st)).
Proof.
  intros. rewrite onDelete_rows, length_delete; [lia|]. by apply lookup_lt_is_Some.
Qed.

(** An index beyond the end deletes nothing. *)
Lemma onDelete_ge index st : length (rows st) ≤ index → onDelete index st = st.
Proof.
  intros. destruct st as [rs sel f]. unfold onDelete, setRows.
  cbn [rows selected form] in *. by rewrite Array.filter_ne_index, delete_ge.
Qed.

(** ** [filterCategories] *)

Lemma keepRow_all item : keepRow "all" item = true.
Proof. done. Qed.

Lemma keepRow_empty item : keepRow "" item = true.
Proof. unfold keepRow. cbn. apply includes_empty. Qed.

Lemma keepRow_other sel item :
  sel ≠ "all" →
  keepRow sel item = includes (toLowerCase (TableRow.category item)) (toLowerCase sel).
Proof. intros. unfold keepRow. by rewrite bool_decide_eq_false_2. Qed.

(** The filtered view is stdpp's [filter] of the rows by [keepRow]. *)
Lemma filterCategories_filter st :
  filterCategories st = filter (λ item, keepRow (selected st) item = true) (rows st).
Proof. apply Array.filter_elem. Qed.

Lemma filterCategories_sublist st : filterCategories st `sublist_of` rows st.
Proof. apply Array.filter_sublist. Qed.

Lemma filterCategories_length st : length (filterCategories st) ≤ length (rows st).
Proof. apply Array.filter_length. Qed.

Lemma elem_of_filterCategories st item :
  item ∈ filterCategories st ↔ keepRow (selected st) item = true ∧ item ∈ rows st.
Proof. by rewrite filterCategories_filter, list_elem_of_filter. Qed.

(** Changing the selection or the form leaves the rows alone; the view
    depends on the rows and the selection only. *)
Lemma filterCategories_setForm f st :
  filterCategories (setForm f st) = filterCategories st.
Proof. done. Qed.

(** ** [handleSelected] *)

Lemma handleSelected_selected value st : selected (handleSelected value st) = value.
Proof. done. Qed.

Lemma handleSelected_rows value st : rows (handleSelected value st) = rows st.
Proof. done. Qed.

(** ** [onSubmit] and [submit] *)

Lemma onSubmit_rows data st : rows (onSubmit data st) = rows st ++ [toRow data].
Proof. done. Qed.

Lemma onSubmit_selected data st : selected (onSubmit data st) = selected st.
Proof. done. Qed.

Lemma onSubmit_length data st :
  length (rows (onSubmit data st)) = S (length (rows st)).
Proof. rewrite onSubmit_rows, length_app. cbn. lia. Qed.

(** The rows already there keep their positions, and the new row is the
    last one. *)
Lemma onSubmit_lookup data st i :
  rows (onSubmit data st) !! i =
    if decide (i < length (rows st)) then rows st !! i
    else if decide (i = length (rows st)) then Some (toRow data) else None.
Proof.
  rewrite onSubmit_rows. repeat case_decide.
  - by rewrite lookup_app_l.
  - subst. by rewrite list_lookup_middle.
  - rewrite lookup_ge_None_2; [done|]. rewrite length_app. cbn. lia.
Qed.

(** The schema's conditions on the data are the conditions [validRow] puts
    on the row built from it. *)
Lemma toRow_valid data : validFormData data ↔ validRow (toRow data).
Proof. unfold validFormData, validRow. cbn. by rewrite validAmount_iff. Qed.

Lemma submit_valid st :
  validFormData (values (form st)) →
  submit st = mkState (rows st ++ [toRow (values (form st))]) (selected st)
                (mkUseForm (values (form st)) ∅ true).
Proof.
  intros Hv. unfold submit. rewrite handleSubmit_valid; [done|].
  apply isValid_true. by apply resolve_valid.
Qed.

Lemma submit_invalid st :
  ¬ validFormData (values (form st)) →
  submit st = mkState (rows st) (selected st)
                (mkUseForm (values (form st))
                   (parseErrorSchema (object_issues schema (values (form st)))) true).
Proof.
  intros Hv. unfold submit, handleSubmit. by rewrite resolve_invalid.
Qed.

Lemma submit_selected st : selected (submit st) = selected st.
Proof.
  destruct (decide (validFormData (values (form st)))).
  - by rewrite submit_valid.
  - by rewrite submit_invalid.
Qed.

Lemma submit_values st : values (form (submit st)) = values (form st).
Proof.
  destruct (decide (validFormData (values (form st)))).
  - by rewrite submit_valid.
  - by rewrite submit_invalid.
Qed.

(** ** [input] *)

Lemma input_rows name value st : rows (input name value st) = rows st.
Proof. done. Qed.

Lemma input_selected name value st : selected (input name value st) = selected st.
Proof. done. Qed.

(** Before the first submission, editing an input displays no message. *)
Lemma input_errors name value st :
  isSubmitted (form st) = false →
  errors (form (input name value st)) = errors (form st).
Proof. apply onChange_errors. Qed.

Lemma input_values name value st :
  values (form (input name value st)) = setField name value (values (form st)).
Proof. done. Qed.

Lemma input_isSubmitted name value st :
  isSubmitted (form (input name value st)) = isSubmitted (form st).
Proof. done. Qed.

Lemma submit_isSubmitted st : isSubmitted (form (submit st)) = true.
Proof.
  destruct (decide (validFormData (values (form st)))).
  - by rewrite submit_valid.
  - by rewrite submit_invalid.
Qed.

(** After a submission the errors are the schema's verdict on the
    values. *)
Lemma submit_errors st :
  errors (form (submit st)) = resolverErrors (values (form st)).
Proof.
  unfold resolverErrors. destruct (decide (validFormData (values (form st)))).
  - by rewrite submit_valid, resolve_valid.
  - by rewrite submit_invalid, resolve_invalid.
Qed.

(** Setting a field leaves the messages of the other keys as they are. *)
Lemma fieldError_setField name value data k :
  k ≠ name → fieldError (setField name value data) k = fieldError data k.
Proof.
  intros Hk. unfold fieldError, setField.
  repeat case_bool_decide; by simplify_eq/=.
Qed.

(** ** Preservation of [formInvariant] *)

Lemma initial_formInvariant : formInvariant initial.
Proof. done. Qed.

Lemma submit_formInvariant st : formInvariant (submit st).
Proof.
  unfold formInvariant. by rewrite submit_isSubmitted, submit_errors, submit_values.
Qed.

Lemma input_formInvariant name value st :
  formInvariant st → formInvariant (input name value st).
Proof.
  unfold formInvariant. rewrite input_isSubmitted, input_values. intros Hinv.
  destruct (isSubmitted (form st)) eqn:Hs; [|by rewrite input_errors].
  apply map_eq. intros k. unfold input. cbn [form setForm].
  rewrite onChange_errors_lookup by done. case_decide as Hk; [by subst|].
  by rewrite Hinv, !schema_resolverErrors, fieldError_setField.
Qed.

Lemma setRows_formInvariant rs st : formInvariant st → formInvariant (setRows rs st).
Proof. done. Qed.

Lemma setSelected_formInvariant sel st :
  formInvariant st → formInvariant (setSelected sel st).
Proof. done. Qed.

(** ** Preservation of [validRow] *)

Lemma onDelete_validRows index st :
  Forall validRow (rows st) → Forall validRow (rows (onDelete index st)).
Proof. rewrite onDelete_rows. apply Forall_delete. Qed.

Lemma onSubmit_validRows data st :
  validFormData data →
  Forall validRow (rows st) → Forall validRow (rows (onSubmit data st)).
Proof.
  intros Hd Hst. rewrite onSubmit_rows. apply Forall_app. split; [done|].
  apply Forall_singleton. by apply toRow_valid.
Qed.

Lemma submit_validRows st :
  Forall validRow (rows st) → Forall validRow (rows (submit st)).
Proof.
  intros Hst. destruct (decide (validFormData (values (form st)))) as [Hv|Hv].
  - rewrite submit_valid by done. by apply (onSubmit_validRows _ st).
  - by rewrite submit_invalid.
Qed.

Lemma filterCategories_validRows st :
  Forall validRow (rows st) → Forall validRow (filterCategories st).
Proof. apply Array.filter_Forall. Qed.

(** A filter whose callback keeps every row shows the rows as they are. *)
Lemma filterCategories_id st :
  (∀ item, keepRow (selected st) item = true) → filterCategories st = rows st.
Proof. intros Hk. apply Array.filter_true. intros i item _. apply Hk. Qed.

(** The selection of the first render and ["all"] keep every row. *)
Lemma keepRow_unfiltered sel item : sel = "" ∨ sel = "all" → keepRow sel item = true.
Proof. intros [->| ->]; [apply keepRow_empty|apply keepRow_all]. Qed.

(** What the callback of the filter computes, for a selection other than
    ["all"]: whether the lower-cased selection occurs in the lower-cased
    category. *)
Lemma keepRow_spec sel item :
  keepRow sel item = true ↔
  sel = "all" ∨
  ∃ pre post, toLowerCase (TableRow.category item) = pre +:+ toLowerCase sel +:+ post.
Proof.
  destruct (decide (sel = "all")) as [->|Hsel]; [rewrite keepRow_all; tauto|].
  rewrite keepRow_other, includes_spec by done. tauto.
Qed.

(** The rows displayed above a row are at most as many as the rows above
    it, and as many exactly when all of them are displayed. *)
Lemma shownBefore_le st index :
  index ≤ length (rows st) →
  shownBefore st index ≤ index ∧
  (shownBefore st index = index ↔
   Forall (λ item, keepRow (selected st) item = true) (take index (rows st))).
Proof.
  intros Hi. unfold shownBefore. rewrite filterCategories_filter. cbn [rows selected setRows].
  rewrite <-filter_length_Forall, length_take_le by done. split; [|done].
  etrans; [apply length_filter|]. by rewrite length_take_le.
Qed.

(** ** States that show the same table *)

Global Instance state_equivalence : Equivalence (≡@{state}).
Proof.
  split.
  - by intros st.
  - by intros st1 st2 [??].
  - intros st1 st2 st3 [??] [??]. split; congruence.
Qed.

Global Instance rows_proper : Proper ((≡) ==> (=)) rows.
Proof. by intros st1 st2 [??]. Qed.

Global Instance selected_proper : Proper ((≡) ==> (=)) selected.
Proof. by intros st1 st2 [??]. Qed.

Global Instance filterCategories_proper : Proper ((≡) ==> (=)) filterCategories.
Proof. intros st1 st2 [Hr Hs]. unfold filterCategories. by rewrite Hr, Hs. Qed.

Global Instance onDelete_proper index : Proper ((≡) ==> (≡)) (onDelete index).
Proof. intros st1 st2 [Hr Hs]. split; [|done]. by rewrite !onDelete_rows, Hr. Qed.

Global Instance handleSelected_proper value : Proper ((≡) ==> (≡)) (handleSelected value).
Proof. by intros st1 st2 [Hr Hs]. Qed.

Global Instance onSubmit_proper data : Proper ((≡) ==> (≡)) (onSubmit data).
Proof. intros st1 st2 [Hr Hs]. split; [|done]. by rewrite !onSubmit_rows, Hr. Qed.

(** Editing an input and a rejected submission leave the table alone. *)
Lemma setForm_equiv f st : setForm f st ≡ st.
Proof. done. Qed.

Lemma input_equiv name value st : input name value st ≡ st.
Proof. apply setForm_equiv. Qed.

Lemma submit_invalid_equiv st : ¬ validFormData (values (form st)) → submit st ≡ st.
Proof. intros Hv. by rewrite submit_invalid. Qed.

(** ** Main theorems *)

(** C4 (functional) A submission of valid values appends exactly one row at
    the end of the list: the description and the category of the form and
    the non-zero integer [parseInt] reads from the amount.  The selection is
    untouched, the errors are cleared, and the inputs keep their values:
    the form is not reset. *)
Theorem submit_accepted st :
  validFormData (values (form st)) →
  ∃ z, parseInt (FormData.amount (values (form st))) = Int z ∧ z ≠ 0%Z ∧
    rows (submit st) =
      rows st ++ [TableRow.mk (FormData.description (values (form st))) (Int z)
                    (FormData.category (values (form st)))] ∧
    selected (submit st) = selected st ∧
    form (submit st) = mkUseForm (values (form st)) ∅ true.
Proof.
  intros Hv. destruct (proj1 (validAmount_iff _) (proj1 (proj2 Hv))) as (z & Hz & ?).
  exists z. rewrite submit_valid by done. unfold toRow. by rewrite Hz.
Qed.

Lemma submit_accepted_witness :
  ∃ z, parseInt "5" = Int z ∧ z ≠ 0%Z ∧
    rows (submit (mkState [] "" (mkUseForm (FormData.mk "Milk" "5" "groceries") ∅ false))) =
      [] ++ [TableRow.mk "Milk" (Int z) "groceries"] ∧
    "" = "" ∧
    form (submit (mkState [] "" (mkUseForm (FormData.mk "Milk" "5" "groceries") ∅ false))) =
      mkUseForm (FormData.mk "Milk" "5" "groceries") ∅ true.
Proof.
  apply (submit_accepted
           (mkState [] "" (mkUseForm (FormData.mk "Milk" "5" "groceries") ∅ false))).
  by apply (bool_decide_unpack _).
Defined.

(** C5 (error) A submission of values the schema rejects changes neither
    the rows, the selection nor the inputs; the form is not valid, its
    errors are not empty, and each field has the message of the schema
    exactly when it fails its check. *)
Theorem submit_rejected st :
  ¬ validFormData (values (form st)) →
  rows (submit st) = rows st ∧ selected (submit st) = selected st ∧
  values (form (submit st)) = values (form st) ∧
  isValid (form (submit st)) = false ∧ errors (form (submit st)) ≠ ∅ ∧
  errors (form (submit st)) !! "description" =
    errorIf (validDescription (FormData.description (values (form st))))
      "Description must be at least 3 characters" ∧
  errors (form (submit st)) !! "amount" =
    errorIf (validAmount (FormData.amount (values (form st)))) "Amount is required" ∧
  errors (form (submit st)) !! "category" =
    errorIf (validCategory (FormData.category (values (form st)))) "Category is required".
Proof.
  intros Hv. rewrite submit_invalid by done. cbn [rows selected form values errors].
  split_and!; try done.
  - apply isValid_false. eexists. by apply resolve_invalid.
  - apply parseErrorSchema_nonempty. by rewrite schema_issues_nil.
  - apply schema_errors_lookup.
  - apply schema_errors_lookup.
  - apply schema_errors_lookup.
Qed.

Lemma submit_rejected_witness :
  let st := mkState [] "all" (mkUseForm (FormData.mk "ab" "0" "") ∅ false) in
  rows (submit st) = [] ∧ selected (submit st) = "all" ∧
  values (form (submit st)) = FormData.mk "ab" "0" "" ∧
  isValid (form (submit st)) = false ∧ errors (form (submit st)) ≠ ∅ ∧
  errors (form (submit st)) !! "description" =
    errorIf (validDescription "ab") "Description must be at least 3 characters" ∧
  errors (form (submit st)) !! "amount" =
    errorIf (validAmount "0") "Amount is required" ∧
  errors (form (submit st)) !! "category" =
    errorIf (validCategory "") "Category is required".
Proof.
  apply (submit_rejected (mkState [] "all" (mkUseForm (FormData.mk "ab" "0" "") ∅ false))).
  by apply (bool_decide_unpack _).
Defined.

(** C6 (functional) The filtered view keeps the order of the rows, and a
    row is in it exactly when it is a row of the list and either the
    selection is ["all"] or the lower-cased selection occurs in the
    lower-cased category of the row. *)
Theorem filterCategories_spec st :
  filterCategories st `sublist_of` rows st ∧
  ∀ item, item ∈ filterCategories st ↔
    item ∈ rows st ∧
    (selected st = "all" ∨
     ∃ pre post, toLowerCase (TableRow.category item) =
                   pre +:+ toLowerCase (selected st) +:+ post).
Proof.
  split; [apply filterCategories_sublist|]. intros item.
  rewrite elem_of_filterCategories, keepRow_spec. tauto.
Qed.

(** C7 (equivalence) [onDelete] removes the row at position [index] of the
    list and nothing else: the rows before it keep their positions, the rows
    after it move up by one, and the selection and the form are untouched. *)
Theorem onDelete_lookup index st i :
  rows (onDelete index st) !! i =
    (if decide (i < index) then rows st !! i else rows st !! S i) ∧
  selected (onDelete index st) = selected st ∧ form (onDelete index st) = form st.
Proof.
  split; [|done]. rewrite onDelete_rows. case_decide.
  - by apply list_lookup_delete_lt.
  - apply list_lookup_delete_ge. lia.
Qed.

(** C8 (functional) The view after [onDelete]: when the row at [index] of
    the list is displayed, it leaves the view, where it stands below the
    displayed rows that precede it in the list; when the filter hides it,
    the view is unchanged. *)
Theorem onDelete_view index st item :
  rows st !! index = Some item →
  filterCategories (onDelete index st) =
    if keepRow (selected st) item
    then delete (shownBefore st index) (filterCategories st)
    else filterCategories st.
Proof.
  intros Hi. unfold shownBefore.
  rewrite !filterCategories_filter, onDelete_rows, onDelete_selected.
  rewrite (filter_delete _ _ _ _ Hi). cbn [rows selected setRows].
  destruct (keepRow (selected st) item); by case_decide.
Qed.

Lemma onDelete_view_witness :
  let st := mkState [TableRow.mk "Milk" (Int 5) "groceries";
                     TableRow.mk "Power" (Int 40) "utilities"] "utilities"
              (useForm (FormData.mk "" "" "")) in
  filterCategories (onDelete 0 st) =
    if keepRow (selected st) (TableRow.mk "Milk" (Int 5) "groceries")
    then delete (shownBefore st 0) (filterCategories st)
    else filterCategories st.
Proof.
  apply (onDelete_view 0
           (mkState [TableRow.mk "Milk" (Int 5) "groceries";
                     TableRow.mk "Power" (Int 40) "utilities"] "utilities"
              (useForm (FormData.mk "" "" "")))
           (TableRow.mk "Milk" (Int 5) "groceries")).
  reflexivity.
Defined.

(** C16 (functional) With the selection of the first render, [""], as with
    ["all"], the view is the whole list: the empty string occurs in every
    category. *)
Theorem filterCategories_unfiltered st :
  selected st = "" ∨ selected st = "all" → filterCategories st = rows st.
Proof.
  intros Hs. apply filterCategories_id. intros item. by apply keepRow_unfiltered.
Qed.

Lemma filterCategories_unfiltered_witness :
  filterCategories (mkState [TableRow.mk "Milk" (Int 5) "groceries"] "" (useForm (FormData.mk "" "" ""))) =
    [TableRow.mk "Milk" (Int 5) "groceries"].
Proof.
  apply (filterCategories_unfiltered
           (mkState [TableRow.mk "Milk" (Int 5) "groceries"] ""
              (useForm (FormData.mk "" "" "")))).
  by left.
Defined.

(** C22 (functional) After a submission, editing an input validates its
    field again: the message of the field becomes the schema's verdict on
    the new value, and the messages of the other fields stay. *)
Theorem input_revalidates name value st k :
  isSubmitted (form st) = true →
  errors (form (input name value st)) !! k =
    if decide (k = name)
    then fieldError (setField name value (values (form st))) name
    else errors (form st) !! k.
Proof.
  intros Hs. unfold input. cbn [form setForm].
  rewrite onChange_errors_lookup by done. by rewrite schema_resolverErrors.
Qed.

Lemma input_revalidates_witness :
  let st := submit (mkState [] "" (mkUseForm (FormData.mk "ab" "0" "") ∅ false)) in
  errors (form (input "description" "abc" st)) !! "description" =
    if decide ("description" = "description")
    then fieldError (setField "description" "abc" (values (form st))) "description"
    else errors (form st) !! "description".
Proof.
  apply (input_revalidates "description" "abc"
           (submit (mkState [] "" (mkUseForm (FormData.mk "ab" "0" "") ∅ false)))
           "description").
  reflexivity.
Defined.

(** C21 (functional) The form is not reset: submitting valid values twice
    appends the same row twice. *)
Theorem submit_twice st :
  validFormData (values (form st)) →
  rows (submit (submit st)) =
    rows st ++ [toRow (values (form st)); toRow (values (form st))].
Proof.
  intros Hv. rewrite (submit_valid (submit st)); rewrite submit_valid by done; [|done].
  cbn [rows form values]. by rewrite <-app_assoc.
Qed.

Lemma submit_twice_witness :
  let st := mkState [] "" (mkUseForm (FormData.mk "Milk" "5" "groceries") ∅ false) in
  rows (submit (submit st)) =
    rows st ++ [toRow (values (form st)); toRow (values (form st))].
Proof.
  apply (submit_twice (mkState [] "" (mkUseForm (FormData.mk "Milk" "5" "groceries") ∅ false))).
  by_compute.
Defined.

(** C35 (roundtrip) An amount typed as the decimal representation of an
    integer is stored as that integer: what the table displays for a row
    is read back to the amount of the row. *)
Theorem toRow_toString description (z : Z) category :
  toRow (FormData.mk description (toString (Int z)) category) =
    TableRow.mk description (Int z) category.
Proof.
  unfold toRow. cbn [FormData.description FormData.amount FormData.category].
  by rewrite parseInt_toString.
Qed.

(** C36 (bounds) The amount of a row built from an input of at most 15 code
    units is, when it is a number, an integer that a double represents
    exactly, so the integers of the model are the numbers of the program. *)
Theorem toRow_safe data (z : Z) :
  String.length (FormData.amount data) ≤ 15 →
  TableRow.amount (toRow data) = Int z →
  (- MAX_SAFE_INTEGER ≤ z ≤ MAX_SAFE_INTEGER)%Z.
Proof. apply parseInt_safe. Qed.

Lemma toRow_safe_witness :
  (- MAX_SAFE_INTEGER ≤ 123456789012345 ≤ MAX_SAFE_INTEGER)%Z.
Proof.
  apply (toRow_safe (FormData.mk "Rent" "123456789012345" "utilities"));
    [cbn; lia|done].
Defined.

#[export] Hint Rewrite onDelete_rows onDelete_selected onSubmit_rows
  onSubmit_selected handleSelected_selected handleSelected_rows input_rows
  input_selected submit_selected submit_values : js.
#[export] Hint Resolve onDelete_validRows submit_validRows
  filterCategories_validRows filterCategories_sublist : js.
