(* ===== verification/View.v ===== *)
(** * What the component renders ([Form.tsx], lines 61-174)

    The JSX the component returns, as a tree of [node]s: elements with
    their props and children, and text.  A prop that holds a function holds
    a [handler], the name of the function of the component that runs when
    the event fires.  Each element of the source is one definition here,
    with the class names and literals of the source, so that [render] reads
    like the JSX.  The lemmas read the tree back: which delete buttons
    exist, what a row and the total cell show, when the total row is
    hidden, which messages are displayed, how many columns a row spans; the
    table depends on the rows and the selection only. *)

From S2P Require Import Prelude JsString JsNumber JsArray Resolver Zod Schema Form.
From stdpp Require Import gmap.

(** ** Trees *)

(** The functions the JSX attaches to events. *)
Inductive handler :=
  | HandleSubmit
  | HandleSelected
  | OnDelete (index : nat).

Global Instance handler_eq_dec : EqDecision handler.
Proof. solve_decision. Defined.

Module jsx.

(** The props that occur in the source. [register name] is the spread
    [{...register(name, { required: true })}]. *)
Inductive prop :=
  | className (s : string)
  | action (s : string)
  | htmlFor (s : string)
  | type (s : string)
  | name (s : string)
  | id (s : string)
  | value (s : string)
  | colSpan (n : nat)
  | key (n : nat)
  | register (field : string)
  | onSubmit (h : handler)
  | onChange (h : handler)
  | onClick (h : handler).

#[warnings="-register-all"]
Inductive node :=
  | Element (tag : string) (props : list prop) (children : list node)
  | Fragment (children : list node)
  | Text (s : string).

End jsx.
Import jsx.

Global Instance prop_eq_dec : EqDecision prop.
Proof. solve_decision. Defined.

(** The children of a node, none for text. *)
Definition children (n : node) : list node :=
  match n with
  | Element _ _ cs | Fragment cs => cs
  | Text _ => []
  end.

(** The [onClick] handlers of a tree, in document order. *)
Fixpoint clickHandlers (n : node) : list handler :=
  match n with
  | Element _ ps cs =>
      omap (λ p, if p is onClick h then Some h else None) ps ++
      flat_map clickHandlers cs
  | Fragment cs => flat_map clickHandlers cs
  | Text _ => []
  end.

(** The text of a tree, concatenated in document order. *)
Fixpoint textContent (n : node) : string :=
  match n with
  | Element _ _ cs | Fragment cs =>
      foldr (λ c s, textContent c +:+ s) "" cs
  | Text s => s
  end.

(** The [value]s of the [option] children of a [select]. *)
Definition optionValues (n : node) : list string :=
  flat_map (λ c, if c is Element "option" ps _
                 then omap (λ p, if p is value v then Some v else None) ps
                 else []) (children n).

(** The [className] of an element, [""] when it has none. *)
Definition classOf (n : node) : string :=
  match n with
  | Element _ ps _ =>
      default "" (head (omap (λ p, if p is className s then Some s else None) ps))
  | _ => ""
  end.

(** The number of columns a cell spans: its [colSpan], one by default. *)
Definition span (cell : node) : nat :=
  match cell with
  | Element _ ps _ =>
      default 1 (head (omap (λ p, if p is colSpan n then Some n else None) ps))
  | _ => 0
  end.

(** The number of columns of a table row. *)
Definition columns (tr : node) : nat := sum_list (span <$> children tr).

(** ** The form (lines 63-113) *)

(** [{errors.field && <p className="text-red-500">{errors.field?.message}</p>}]
    (lines 72-74, 83-85, 98-100): the paragraph when the field has an
    error, nothing otherwise. *)
Definition errorMessage (errs : gmap string string) (field : string) : list node :=
  match errs !! field with
  | Some message => [Element "p" [className "text-red-500"] [Text message]]
  | None => []
  end.

(** Lines 65-75. *)
Definition descriptionField (errs : gmap string string) : node :=
  Element "div" [className "wrapper"] (
    [Element "label" [htmlFor ""] [Text "Description"];
     Element "input" [type "text"; className "w-full p-2"; register "description"] []]
    ++ errorMessage errs "description").

(** Lines 76-86. *)
Definition amountField (errs : gmap string string) : node :=
  Element "div" [className "wrapper"] (
    [Element "label" [htmlFor ""] [Text "Amount"];
     Element "input" [type "number"; className "w-full p-2"; register "amount"] []]
    ++ errorMessage errs "amount").

(** Lines 89-97: the selector of the category. *)
Definition categorySelect : node :=
  Element "select"
    [className "w-full p-2 mb-8 bg-white border-2 border-gray-300 rounded-md";
     register "category"]
    [Element "option" [value ""] [];
     Element "option" [value "groceries"] [Text "Groceries"];
     Element "option" [value "utilities"] [Text "Utilities"];
     Element "option" [value "entertainment"] [Text "Entertainment"]].

(** Lines 87-101. *)
Definition categoryField (errs : gmap string string) : node :=
  Element "div" [className "wrapper"] (
    [Element "label" [htmlFor ""] [Text "Category"]; categorySelect]
    ++ errorMessage errs "category").

(** Lines 102-111: the class of the button depends on [isValid]; the button
    is never disabled. *)
Definition submitButton (isValid : bool) : node :=
  Element "button"
    [type "submit";
     className (if negb isValid
                then "bg-gray-700 text-white duration-300  py-2 px-8 rounded-md !mt-0"
                else "bg-cyan-500 text-white duration-300 hover:bg-cyan-600 py-2 px-8 rounded-md !mt-0")]
    [Text "Submit"].

(** Lines 63-113. *)
Definition formView (st : state) : node :=
  Element "form" [action ""; onSubmit HandleSubmit; className "mt-12"]
    [Element "div" [className "container flow-content--m"]
       [descriptionField (errors (form st));
        amountField (errors (form st));
        categoryField (errors (form st));
        submitButton (isValid (form st))]].

(** ** The table (lines 115-172) *)

(** Lines 117-127: the selector of the filter. *)
Definition filterSelect : node :=
  Element "select"
    [name ""; id "";
     className "w-full p-4 mb-8 bg-white border-2 border-gray-300 rounded-md";
     onChange HandleSelected]
    [Element "option" [value "all"] [Text "All categories"];
     Element "option" [value "groceries"] [Text "Groceries"];
     Element "option" [value "utilities"] [Text "Utilities"];
     Element "option" [value "entertainment"] [Text "Entertainment"]].

(** Lines 129-142. *)
Definition tableHead : node :=
  Element "thead" []
    [Element "tr" [className ""]
       [Element "th" [className "py-2 border-2 border-r-0 border-black"]
          [Text "Description"];
        Element "th" [className "py-2 border-2 border-r-0 border-black"]
          [Text "Amount"];
        Element "th" [className "py-2 border-2 border-r-0 border-black"]
          [Text "Category"];
        Element "th" [className "py-2 border-2 border-black"] [Text "Delete"]]].

(** Lines 145-157: the row of one item of the filtered view, at its index
    in that view. *)
Definition tableRow (item : TableRow) (index : nat) : node :=
  Element "tr" [key index; className "border-b"]
    [Element "td" [className "py-2"] [Text (TableRow.description item)];
     Element "td" [className "py-2"]
       [Text "$"; Text (toString (TableRow.amount item))];
     Element "td" [className "py-2"] [Text (TableRow.category item)];
     Element "td" [className "py-2"]
       [Element "button"
          [className "px-4 py-1 text-red-500 duration-300 border-2 border-red-500 rounded-md hover:bg-red-500 hover:text-white";
           onClick (OnDelete index)]
          [Text "Delete"]]].

(** Lines 163-166: the sum of the amounts of the filtered view. *)
Definition total (st : state) : number :=
  Array.reduce (λ acc curr, number_add acc (TableRow.amount curr)) (Int 0)
    (filterCategories st).

(** Lines 159-168: the total row, hidden when there is no row at all. *)
Definition totalRow (st : state) : node :=
  Element "tr" [className (if length (rows st) === 0 then "hidden" else "")]
    [Element "td" [colSpan 3] [Text "Total"];
     Element "td" [className "border-r-2 border-black"]
       [Text "$"; Text (toString (total st))]].

(** Lines 143-169. *)
Definition tableBody (st : state) : node :=
  Element "tbody" []
    (Array.map (λ item index, tableRow item index) (filterCategories st)
     ++ [totalRow st]).

(** Lines 115-172. *)
Definition tableSection (st : state) : node :=
  Element "section" [className "py-16"]
    [Element "div" [className "container"]
       [filterSelect;
        Element "table" [className "w-full"] [tableHead; tableBody st]]].

(** Lines 61-174: what [Form] returns. *)
Definition render (st : state) : node :=
  Fragment [formView st; tableSection st].

(** The amount of a row as an integer, [0] for [NaN]. *)
Definition amountZ (r : TableRow) : Z :=
  match TableRow.amount r with
  | Int z => z
  | NaN => 0
  end.

(** ** Reading the form back *)

Lemma errorMessage_Some errs field message :
  errs !! field = Some message →
  errorMessage errs field = [Element "p" [className "text-red-500"] [Text message]].
Proof. unfold errorMessage. by intros ->. Qed.

Lemma errorMessage_None errs field :
  errs !! field = None → errorMessage errs field = [].
Proof. unfold errorMessage. by intros ->. Qed.

(** A message is displayed exactly when the field has an error. *)
Lemma errorMessage_nil errs field :
  errorMessage errs field = [] ↔ errs !! field = None.
Proof. unfold errorMessage. by destruct (errs !! field). Qed.

(** The text a field's error paragraph shows is the message of its error. *)
Lemma errorMessage_text errs field :
  textContent <$> errorMessage errs field = option_list (errs !! field).
Proof. unfold errorMessage. destruct (errs !! field); [|done]. cbn. by rewrite string_app_nil_r. Qed.

(** The values the two selectors offer. *)
Lemma optionValues_categorySelect :
  optionValues categorySelect = [""; "groceries"; "utilities"; "entertainment"].
Proof. done. Qed.

Lemma optionValues_filterSelect :
  optionValues filterSelect = ["all"; "groceries"; "utilities"; "entertainment"].
Proof. done. Qed.

(** The button is grey exactly when the form is not valid. *)
Lemma submitButton_class (b : bool) :
  classOf (submitButton b) =
    "bg-gray-700 text-white duration-300  py-2 px-8 rounded-md !mt-0" ↔ b = false.
Proof. by destruct b. Qed.

(** ** Reading the table back *)

Lemma clickHandlers_tableRow item index :
  clickHandlers (tableRow item index) = [OnDelete index].
Proof. done. Qed.

Lemma clickHandlers_tableRows (l : list TableRow) (n : nat) :
  flat_map clickHandlers (imap (λ i x, tableRow x (n + i)) l) =
    OnDelete <$> seq n (length l).
Proof.
  revert n. induction l as [|x l IH]; intros n; [done|].
  rewrite imap_cons. cbn [flat_map length seq fmap list_fmap].
  rewrite clickHandlers_tableRow, Nat.add_0_r. cbn [app]. f_equal.
  rewrite <-IH. f_equal. apply imap_ext. intros i y _. cbn. f_equal. lia.
Qed.

Lemma clickHandlers_tableBody st :
  clickHandlers (tableBody st) = OnDelete <$> seq 0 (length (filterCategories st)).
Proof.
  unfold tableBody. cbn [clickHandlers omap list_omap app].
  rewrite flat_map_app. cbn [flat_map totalRow clickHandlers omap list_omap app].
  rewrite app_nil_r. apply (clickHandlers_tableRows _ 0).
Qed.

(** The body has one row per item of the filtered view, then the total
    row. *)
Lemma tableBody_children st :
  length (children (tableBody st)) = S (length (filterCategories st)).
Proof. cbn. rewrite length_app, Array.map_length. cbn. lia. Qed.

Lemma tableBody_lookup st i item :
  filterCategories st !! i = Some item →
  children (tableBody st) !! i = Some (tableRow item i).
Proof.
  intros Hi. cbn. rewrite lookup_app_l.
  - by rewrite Array.map_lookup, Hi.
  - rewrite Array.map_length. by eapply lookup_lt_Some.
Qed.

Lemma tableBody_last st :
  children (tableBody st) !! length (filterCategories st) = Some (totalRow st).
Proof.
  cbn. rewrite lookup_app_r; rewrite Array.map_length; [|done].
  by rewrite Nat.sub_diag.
Qed.

(** Summing amounts that are all integers gives the integer sum. *)
Lemma reduce_amounts (l : list TableRow) (a : Z) :
  Forall (λ r, ∃ z, TableRow.amount r = Int z) l →
  Array.reduce (λ acc curr, number_add acc (TableRow.amount curr)) (Int a) l =
    Int (a + Zsum amountZ l).
Proof.
  intros Hl. revert a. induction Hl as [|r l [z Hz] _ IH]; intros a.
  - rewrite Array.reduce_nil, Zsum_nil. f_equal. lia.
  - rewrite Array.reduce_cons, Zsum_cons, Hz. cbn [number_add]. rewrite IH.
    unfold amountZ at 2. rewrite Hz. f_equal. lia.
Qed.

(** One [NaN] amount makes the sum [NaN]. *)
Lemma reduce_amounts_NaN (l : list TableRow) (acc : number) :
  acc = NaN ∨ Exists (λ r, TableRow.amount r = NaN) l →
  Array.reduce (λ acc curr, number_add acc (TableRow.amount curr)) acc l = NaN.
Proof.
  revert acc. induction l as [|r l IH]; intros acc [->|Hex];
    rewrite ?Array.reduce_nil, ?Array.reduce_cons; try done.
  - by apply Exists_nil in Hex.
  - apply IH. by left.
  - apply IH. apply Exists_cons in Hex as [->|?]; [left|by right].
    by destruct acc.
Qed.

Lemma validRow_amount (r : TableRow) : validRow r → ∃ z, TableRow.amount r = Int z.
Proof. intros (_ & (z & ? & _) & _). by exists z. Qed.

(** The total row is hidden exactly when the list of rows is empty,
    whatever the filter shows. *)
Lemma totalRow_hidden st : classOf (totalRow st) = "hidden" ↔ rows st = [].
Proof.
  cbn. destruct (rows st); cbn; [done|]. split; done.
Qed.

Lemma totalRow_text st :
  textContent (totalRow st) = "Total$" +:+ toString (total st).
Proof. cbn. by rewrite !string_app_nil_r. Qed.

(** ** The handlers the whole tree carries *)

Lemma clickHandlers_errorMessage errs field :
  flat_map clickHandlers (errorMessage errs field) = [].
Proof. unfold errorMessage. by destruct (errs !! field). Qed.

(** The form has no [onClick]. *)
Lemma clickHandlers_formView st : clickHandlers (formView st) = [].
Proof.
  unfold formView, descriptionField, amountField, categoryField.
  cbn [clickHandlers flat_map omap list_omap app].
  by rewrite !clickHandlers_errorMessage.
Qed.

Lemma clickHandlers_tableSection st :
  clickHandlers (tableSection st) = clickHandlers (tableBody st).
Proof.
  unfold tableSection. cbn -[tableBody]. by rewrite !app_nil_r.
Qed.

Lemma clickHandlers_render st :
  clickHandlers (render st) = OnDelete <$> seq 0 (length (filterCategories st)).
Proof.
  unfold render. cbn [clickHandlers flat_map].
  by rewrite clickHandlers_formView, clickHandlers_tableSection,
    clickHandlers_tableBody, app_nil_r.
Qed.

(** The total of a view whose amounts are integers is their sum. *)
Lemma total_Zsum st :
  Forall validRow (rows st) → total st = Int (Zsum amountZ (filterCategories st)).
Proof.
  intros Hv. unfold total. rewrite reduce_amounts; [done|].
  eapply Forall_impl; [by apply filterCategories_validRows|]. apply validRow_amount.
Qed.

Lemma textContent_tableRow item index :
  textContent (tableRow item index) =
    TableRow.description item +:+ "$" +:+ toString (TableRow.amount item) +:+
    TableRow.category item +:+ "Delete".
Proof. cbn. by rewrite !string_app_nil_r, !string_app_assoc. Qed.

(** ** The table depends on the rows and the selection only *)

Global Instance total_proper : Proper ((≡) ==> (=)) total.
Proof. intros st1 st2 Hst. unfold total. by rewrite (filterCategories_proper _ _ Hst). Qed.

Global Instance totalRow_proper : Proper ((≡) ==> (=)) totalRow.
Proof.
  intros st1 st2 Hst. unfold totalRow.
  by rewrite (rows_proper _ _ Hst), (total_proper _ _ Hst).
Qed.

Global Instance tableBody_proper : Proper ((≡) ==> (=)) tableBody.
Proof.
  intros st1 st2 Hst. unfold tableBody.
  by rewrite (filterCategories_proper _ _ Hst), (totalRow_proper _ _ Hst).
Qed.

Global Instance tableSection_proper : Proper ((≡) ==> (=)) tableSection.
Proof. intros st1 st2 Hst. unfold tableSection. by rewrite (tableBody_proper _ _ Hst). Qed.

(** ** Main theorems *)

(** C30 (functional) The row displayed at position [i] of the table body is
    the row of the [i]-th item of the filtered view: it shows its
    description, its amount after a dollar sign and its category, and its
    delete button calls [onDelete] with [i], the position in the view. *)
Theorem tableBody_row st i item :
  filterCategories st !! i = Some item →
  children (tableBody st) !! i = Some (tableRow item i) ∧
  clickHandlers (tableRow item i) = [OnDelete i] ∧
  textContent (tableRow item i) =
    TableRow.description item +:+ "$" +:+ toString (TableRow.amount item) +:+
    TableRow.category item +:+ "Delete".
Proof.
  intros Hi. split_and!.
  - by apply tableBody_lookup.
  - apply clickHandlers_tableRow.
  - apply textContent_tableRow.
Qed.

Lemma tableBody_row_witness :
  let st := mkState [TableRow.mk "Milk" (Int 5) "groceries";
                     TableRow.mk "Power" (Int 40) "utilities"] "utilities"
              (useForm (FormData.mk "" "" "")) in
  children (tableBody st) !! 0 =
    Some (tableRow (TableRow.mk "Power" (Int 40) "utilities") 0) ∧
  clickHandlers (tableRow (TableRow.mk "Power" (Int 40) "utilities") 0) = [OnDelete 0] ∧
  textContent (tableRow (TableRow.mk "Power" (Int 40) "utilities") 0) =
    "Power" +:+ "$" +:+ toString (Int 40) +:+ "utilities" +:+ "Delete".
Proof.
  apply (tableBody_row
           (mkState [TableRow.mk "Milk" (Int 5) "groceries";
                     TableRow.mk "Power" (Int 40) "utilities"] "utilities"
              (useForm (FormData.mk "" "" ""))) 0
           (TableRow.mk "Power" (Int 40) "utilities")).
  reflexivity.
Defined.

(** C31 (functional) The total row is the last child of the table body; it
    is hidden exactly when the list of rows is empty, whatever the filter
    shows, and its text is the total of the filtered view after
    ["Total$"]. *)
Theorem totalRow_shown st :
  last (children (tableBody st)) = Some (totalRow st) ∧
  (classOf (totalRow st) = "hidden" ↔ rows st = []) ∧
  textContent (totalRow st) = "Total$" +:+ toString (total st).
Proof.
  split_and!.
  - cbn [tableBody children]. apply last_snoc.
  - apply totalRow_hidden.
  - apply totalRow_text.
Qed.


(** C34 (functional) The submit button has the grey class exactly when the
    values of the form do not pass the schema; it is a styling only, the
    button carries no handler and no [disabled] prop. *)
Theorem submitButton_grey st :
  (classOf (submitButton (isValid (form st))) =
     "bg-gray-700 text-white duration-300  py-2 px-8 rounded-md !mt-0" ↔
   ¬ validFormData (values (form st))) ∧
  clickHandlers (submitButton (isValid (form st))) = [].
Proof.
  split; [|done]. rewrite submitButton_class.
  destruct (decide (validFormData (values (form st)))) as [Hv|Hv].
  - pose proof (proj2 (isValid_true (form st)) (resolve_valid _ Hv)) as ->. done.
  - pose proof (proj2 (isValid_false (form st)) (ex_intro _ _ (resolve_invalid _ Hv))) as ->.
    done.
Qed.

(** C32 (type) The table is rectangular: the header and every row of the
    body, the total row included, span four columns. *)
Theorem table_rectangular st :
  Forall (λ tr, columns tr = 4) (children tableHead ++ children (tableBody st)).
Proof.
  apply Forall_app. split; [by repeat constructor|].
  cbn [tableBody children]. apply Forall_app. split; [|by repeat constructor].
  by apply Array.map_Forall.
Qed.

(** C37 (bounds) The running sum of the total stays within the integers a
    double represents exactly, when the number of rows times a bound on the
    magnitude of their amounts does: every intermediate value of the
    [reduce] is then the exact sum, in the program as in the model. *)
Theorem total_safe st (B : Z) (n : nat) :
  (0 ≤ B)%Z →
  Forall validRow (rows st) →
  Forall (λ r, (- B ≤ amountZ r ≤ B)%Z) (rows st) →
  (Z.of_nat (length (rows st)) * B ≤ MAX_SAFE_INTEGER)%Z →
  isSafeInteger
    (Array.reduce (λ acc curr, number_add acc (TableRow.amount curr)) (Int 0)
       (take n (filterCategories st))) = true.
Proof.
  intros HB Hv Hb Hmax.
  assert (take n (filterCategories st) `sublist_of` rows st) as Hsub.
  { etrans; [apply sublist_take|apply filterCategories_sublist]. }
  rewrite reduce_amounts
    by (eapply Forall_impl; [exact (Forall_sublist _ _ _ Hsub Hv)|apply validRow_amount]).
  pose proof (Zsum_bound amountZ _ B (Forall_sublist _ _ _ Hsub Hb)).
  pose proof (sublist_length _ _ Hsub). apply bool_decide_eq_true. nia.
Qed.

Lemma total_safe_witness :
  isSafeInteger
    (Array.reduce (λ acc curr, number_add acc (TableRow.amount curr)) (Int 0)
       (take 1 (filterCategories
                  (mkState [TableRow.mk "Milk" (Int 5) "groceries"] "all"
                     (useForm (FormData.mk "" "" "")))))) = true.
Proof.
  apply (total_safe (mkState [TableRow.mk "Milk" (Int 5) "groceries"] "all"
                       (useForm (FormData.mk "" "" ""))) 5 1).
  - lia.
  - apply Forall_singleton. split_and!; [cbn; lia|by exists 5%Z|cbn; lia].
  - apply Forall_singleton. cbn. lia.
  - by_compute.
Defined.



#[export] Hint Rewrite clickHandlers_render tableBody_children : js.
