(* ===== verification/Spec.v ===== *)
(** * The abstract entry-list manager

    What the specification promises of the component, independently of
    strings, [NaN] and the form: a list of entries, each with a description,
    an integer amount and one of three categories, and a filter that is
    either "all" or one category.  An entry is added at the end, deleted by
    position, and the view and its total are computed from the list and the
    filter.  [deleteShown] is the deletion of the entry displayed at a
    position of the view, with the proof that it removes exactly that entry
    from the view and that deletion by position agrees with it when nothing
    before the position is filtered out.  [App] proves that the component
    refines this machine. *)

From S2P Require Import Prelude.

Module Spec.

(** ** Data *)

(** The fixed set of categories. *)
Inductive Category := groceries | utilities | entertainment.

Global Instance Category_eq_dec : EqDecision Category.
Proof. solve_decision. Defined.

Record Entry := mkEntry {
  description : string;
  amount : Z;
  category : Category;
}.

Global Instance Entry_eq_dec : EqDecision Entry.
Proof. solve_decision. Defined.

(** The filter: no constraint, or one category. *)
Inductive Filter := All | Only (c : Category).

Global Instance Filter_eq_dec : EqDecision Filter.
Proof. solve_decision. Defined.

Record state := mkState {
  entries : list Entry;
  selection : Filter;
}.

Global Instance state_eq_dec : EqDecision state.
Proof. solve_decision. Defined.

(** The operations a user can perform. *)
Inductive action :=
  | Add (e : Entry)
  | Delete (index : nat)
  | Select (f : Filter).

(** ** Operations *)

Definition initial : state := mkState [] All.

(** Whether an entry passes a filter. *)
Definition passes (f : Filter) (e : Entry) : Prop :=
  match f with
  | All => True
  | Only c => category e = c
  end.

Global Instance passes_dec f e : Decision (passes f e).
Proof. destruct f; cbn; apply _. Defined.

(** The entries shown, in insertion order. *)
Definition view (s : state) : list Entry :=
  filter (passes (selection s)) (entries s).

(** The total of the entries shown. *)
Definition total (s : state) : Z := Zsum amount (view s).

(** The total row is hidden when the list is empty. *)
Definition totalHidden (s : state) : bool := bool_decide (entries s = []).

Definition step (a : action) (s : state) : state :=
  match a with
  | Add e => mkState (entries s ++ [e]) (selection s)
  | Delete index => mkState (delete index (entries s)) (selection s)
  | Select f => mkState (entries s) f
  end.

(** A stuttering step or an action. *)
Definition step_opt (a : option action) (s : state) : state :=
  match a with
  | Some a => step a s
  | None => s
  end.

(** The deletion a user means: the entry displayed at position [index] of
    the view is removed, wherever it stands in the list. *)
Definition deleteShown (index : nat) (s : state) : state :=
  match nth_filter (passes (selection s)) (entries s) index with
  | Some i => step (Delete i) s
  | None => s
  end.

(** The state after a sequence of actions, first action first. *)
Definition run (acts : list action) (s : state) : state :=
  foldl (λ s a, step a s) s acts.

(** The entry that deleting position [index] of the view is meant to
    remove: the one shown there. *)
Definition shown (s : state) (index : nat) : option Entry := view s !! index.

(** ** Properties of the abstract machine *)

(** Every entry is shown under [All]. *)
Lemma view_All es : view (mkState es All) = es.
Proof.
  unfold view. cbn. induction es as [|e es IH]; [done|].
  by rewrite filter_cons_True, IH.
Qed.

Lemma view_sublist s : view s `sublist_of` entries s.
Proof. apply sublist_filter. Qed.

Lemma elem_of_view s e : e ∈ view s ↔ passes (selection s) e ∧ e ∈ entries s.
Proof. apply list_elem_of_filter. Qed.

(** Adding an entry appends it to the view when it passes the filter, and
    leaves the view alone otherwise. *)
Lemma view_Add e s :
  view (step (Add e) s) =
    if decide (passes (selection s) e) then view s ++ [e] else view s.
Proof.
  unfold view. cbn. rewrite filter_app, filter_cons, filter_nil.
  case_decide; [done|]. by rewrite app_nil_r.
Qed.

Lemma total_Add e s :
  total (step (Add e) s) =
    if decide (passes (selection s) e) then (total s + amount e)%Z else total s.
Proof.
  unfold total. rewrite view_Add. case_decide; [|done].
  rewrite Zsum_app, Zsum_cons, Zsum_nil. lia.
Qed.

(** Under [All], deleting a position of the view deletes the entry shown
    there. *)
Lemma view_Delete_All index es :
  view (step (Delete index) (mkState es All)) = delete index (view (mkState es All)).
Proof. unfold step. cbn [entries selection]. by rewrite !view_All. Qed.

Lemma run_app acts1 acts2 s : run (acts1 ++ acts2) s = run acts2 (run acts1 s).
Proof. apply foldl_app. Qed.

(** A stuttering step or an action, as a run of at most one action. *)
Lemma run_option_list a s : run (option_list a) s = step_opt a s.
Proof. by destruct a. Qed.

(** The intended deletion removes from the view exactly the entry
    displayed at the index, and keeps the filter. *)
Lemma view_deleteShown index s : view (deleteShown index s) = delete index (view s).
Proof.
  unfold deleteShown, view.
  destruct (nth_filter _ _ index) as [i|] eqn:Hi; [by apply filter_delete_nth|].
  rewrite delete_ge; [done|]. apply lookup_ge_None. by rewrite nth_filter_lookup, Hi.
Qed.

Lemma selection_deleteShown index s : selection (deleteShown index s) = selection s.
Proof. unfold deleteShown. by destruct (nth_filter _ _ index). Qed.

(** Deleting by position is the intended deletion when every entry up to
    the position is shown. *)
Lemma deleteShown_Delete index s :
  Forall (passes (selection s)) (take (S index) (entries s)) →
  deleteShown index s = step (Delete index) s.
Proof.
  intros Hall. unfold deleteShown.
  destruct (decide (index < length (entries s))) as [Hlt|Hge].
  { by rewrite nth_filter_id. }
  destruct (nth_filter _ _ index) as [i|] eqn:Hi.
  - apply nth_filter_Some in Hi as (x & Hx%lookup_lt_Some & _ & Hlen).
    pose proof (length_filter (passes (selection s)) (take i (entries s))) as Hle.
    rewrite length_take_le in Hle by lia. lia.
  - destruct s as [es f]. cbn in *. by rewrite delete_ge by lia.
Qed.

Lemma deleteShown_All index es :
  deleteShown index (mkState es All) = step (Delete index) (mkState es All).
Proof. apply deleteShown_Delete. by apply Forall_true. Qed.

Lemma totalHidden_iff s : totalHidden s = true ↔ entries s = [].
Proof. apply bool_decide_eq_true. Qed.

End Spec.
