(* ===== verification/App.v ===== *)
(** * The running component: events, steps, invariants and refinement

    A user acts on what is rendered: they edit a registered input, submit
    the form, choose a value in the filter selector, or click a delete
    button.  [handle] dispatches an [event] to the handler the JSX attaches
    to the element; [offered] says which events the rendered tree allows
    (a delete button exists only for a row that is shown, a selector offers
    only its options).  [step] is one offered event, [reachable] the states
    a user can bring the component to from [initial]; [runEvents] runs a
    sequence of events.

    The invariants: [validRows] (every row passed the schema) holds after
    any sequence of events, offered or not; [uiInvariant] (categories and
    selection come from the selectors' options) holds in reachable states.
    Under both, [abs] maps the state to a state of the abstract machine
    [Spec], and every step of the component is a step of [Spec] or a
    stutter.  A click on a delete button is the abstract deletion by
    position; it is the deletion of the displayed entry,
    [Spec.deleteShown], when nothing is filtered out, and not in
    general. *)

From stdpp Require Import gmap.
From S2P Require Import Prelude JsString JsNumber JsArray Resolver Zod Schema.
From S2P Require Import Form View Spec.

(** ** Events and steps *)

(** What the browser delivers to the component. [Change value] is a change
    of the filter selector, [Click index] a click on the delete button of
    the row displayed at [index]. *)
Inductive event :=
  | Input (name value : string)
  | Submit
  | Change (value : string)
  | Click (index : nat).

Global Instance event_eq_dec : EqDecision event.
Proof. solve_decision. Defined.

(** The function a [handler] names, applied to the value of the event's
    target. *)
Definition run (h : handler) (value : string) (st : state) : state :=
  match h with
  | HandleSubmit => submit st
  | HandleSelected => handleSelected value st
  | OnDelete index => onDelete index st
  end.

(** The state after an event. *)
Definition handle (e : event) (st : state) : state :=
  match e with
  | Input name value => input name value st
  | Submit => run HandleSubmit "" st
  | Change value => run HandleSelected value st
  | Click index => run (OnDelete index) "" st
  end.

(** The state after a sequence of events, first event first. *)
Definition runEvents (es : list event) (st : state) : state :=
  foldl (λ st e, handle e st) st es.

(** The events the rendered tree allows. *)
Definition offered (st : state) (e : event) : Prop :=
  match e with
  | Input name value =>
      name ∈ ["description"; "amount"] ∨
      name = "category" ∧ value ∈ optionValues categorySelect
  | Submit => True
  | Change value => value ∈ optionValues filterSelect
  | Click index => OnDelete index ∈ clickHandlers (render st)
  end.

Global Instance offered_dec st e : Decision (offered st e).
Proof. destruct e; cbn; apply _. Defined.

(** Every event of the sequence is offered by the state it arrives in. *)
Fixpoint offeredAll (es : list event) (st : state) : Prop :=
  match es with
  | [] => True
  | e :: es' => offered st e ∧ offeredAll es' (handle e st)
  end.

Global Instance offeredAll_dec es st : Decision (offeredAll es st).
Proof. revert st. induction es; intros st; cbn; apply _. Defined.

(** One step: an offered event. *)
Inductive step : state → state → Prop :=
  | step_event st e : offered st e → step st (handle e st).

(** The states a user can reach. *)
Definition reachable (st : state) : Prop := rtc step initial st.

(** ** Invariants *)

(** Every row passed the schema. *)
Definition validRows (st : state) : Prop := Forall validRow (rows st).

(** The categories a row can have, and the values [selected] can take. *)
Definition categories : list string := ["groceries"; "utilities"; "entertainment"].

Definition selections : list string := "" :: optionValues filterSelect.

(** What the selectors guarantee: the selection is the initial [""] or an
    option of the filter selector, the category of every row is one of the
    three categories, and the category input holds an option of its
    selector. *)
Definition uiInvariant (st : state) : Prop :=
  selected st ∈ selections ∧
  Forall (λ r, TableRow.category r ∈ categories) (rows st) ∧
  FormData.category (values (form st)) ∈ optionValues categorySelect.

Global Instance uiInvariant_dec st : Decision (uiInvariant st).
Proof. unfold uiInvariant. apply _. Defined.

(** ** The abstraction to [Spec] *)

Definition absCategory (c : string) : option Spec.Category :=
  if c === "groceries" then Some Spec.groceries
  else if c === "utilities" then Some Spec.utilities
  else if c === "entertainment" then Some Spec.entertainment
  else None.

Definition absAmount (n : number) : option Z :=
  match n with
  | Int z => Some z
  | NaN => None
  end.

Definition absRow (r : TableRow) : option Spec.Entry :=
  c ← absCategory (TableRow.category r);
  z ← absAmount (TableRow.amount r);
  Some (Spec.mkEntry (TableRow.description r) z c).

(** The initial empty selection behaves as ["all"]. *)
Definition absFilter (s : string) : option Spec.Filter :=
  if (s === "") || (s === "all") then Some Spec.All
  else Spec.Only <$> absCategory s.

Definition abs (st : state) : option Spec.state :=
  es ← mapM absRow (rows st);
  f ← absFilter (selected st);
  Some (Spec.mkState es f).

(** The abstract action an event performs in a state, [None] for a
    stutter: editing an input or an invalid submission changes nothing the
    abstract machine sees. *)
Definition absEvent (st : state) (e : event) : option Spec.action :=
  match e with
  | Input _ _ => None
  | Submit =>
      if decide (validFormData (values (form st)))
      then Spec.Add <$> absRow (toRow (values (form st)))
      else None
  | Change value => Spec.Select <$> absFilter value
  | Click index => Some (Spec.Delete index)
  end.

(** The relation between a row and the entry it stands for. *)
Definition rowEntry (r : TableRow) (e : Spec.Entry) : Prop := absRow r = Some e.

(** The abstract actions of a sequence of events, from the state the
    sequence starts in. *)
Fixpoint absEvents (st : state) (es : list event) : list Spec.action :=
  match es with
  | [] => []
  | e :: es' => option_list (absEvent st e) ++ absEvents (handle e st) es'
  end.

(** ** Sessions *)

(** The events of a user who fills in the three inputs and submits. *)
Definition enter (data : FormData) : list event :=
  [Input "description" (FormData.description data);
   Input "amount" (FormData.amount data);
   Input "category" (FormData.category data);
   Submit].

(** Whether an event is a change of the filter selector. *)
Definition isChange (e : event) : bool :=
  if e is Change _ then true else false.

(** A session used by the examples: two expenses are entered, then the
    filter is set to the category of the second. *)
Definition session : list event :=
  enter (FormData.mk "Milk" "5" "groceries") ++
  enter (FormData.mk "Power" "40" "utilities") ++
  [Change "utilities"].

(** ** Steps and sequences of events *)

Lemma runEvents_nil st : runEvents [] st = st.
Proof. done. Qed.

Lemma runEvents_cons e es st : runEvents (e :: es) st = runEvents es (handle e st).
Proof. done. Qed.

Lemma runEvents_app es1 es2 st :
  runEvents (es1 ++ es2) st = runEvents es2 (runEvents es1 st).
Proof. apply foldl_app. Qed.

Lemma offeredAll_app es1 es2 st :
  offeredAll (es1 ++ es2) st ↔ offeredAll es1 st ∧ offeredAll es2 (runEvents es1 st).
Proof.
  revert st. induction es1 as [|e es1 IH]; intros st; cbn [offeredAll app].
  - rewrite runEvents_nil. tauto.
  - rewrite IH, runEvents_cons. tauto.
Qed.

(** A delete button exists exactly for the positions of the filtered
    view. *)
Lemma offered_Click st index :
  offered st (Click index) ↔ index < length (filterCategories st).
Proof.
  unfold offered. rewrite clickHandlers_render, list_elem_of_fmap. split.
  - intros (i & [= ->] & Hi%elem_of_seq). lia.
  - intros Hi. exists index. split; [done|]. apply elem_of_seq. lia.
Qed.

(** Offered sequences of events reach exactly the reachable states. *)
Lemma rtc_runEvents es st : offeredAll es st → rtc step st (runEvents es st).
Proof.
  revert st. induction es as [|e es IH]; intros st; cbn [offeredAll].
  - intros _. apply rtc_refl.
  - intros [He Hes]. rewrite runEvents_cons.
    eapply rtc_l; [by apply step_event|by apply IH].
Qed.

Lemma reachable_runEvents es :
  offeredAll es initial → reachable (runEvents es initial).
Proof. apply rtc_runEvents. Qed.

Lemma reachable_events st :
  reachable st → ∃ es, offeredAll es initial ∧ st = runEvents es initial.
Proof.
  revert st.
  apply (rtc_ind_r (λ st, ∃ es, offeredAll es initial ∧ st = runEvents es initial)).
  - by exists [].
  - intros st st' _ [st1 e He] (es & Hes & ->). exists (es ++ [e]).
    rewrite offeredAll_app, runEvents_app. cbn. tauto.
Qed.

(** ** Preservation of the invariants *)

Lemma handle_validRows e st : validRows st → validRows (handle e st).
Proof.
  unfold validRows. destruct e; cbn; [done| | |]; auto with js.
Qed.

Lemma runEvents_validRows es st : validRows st → validRows (runEvents es st).
Proof.
  revert st. induction es as [|e es IH]; intros st Hst; [done|].
  rewrite runEvents_cons. by apply IH, handle_validRows.
Qed.

Lemma initial_validRows : validRows initial.
Proof. constructor. Qed.

Lemma initial_uiInvariant : uiInvariant initial.
Proof. by apply (bool_decide_unpack _). Qed.

(** A non-empty option of the category selector is a category. *)
Lemma category_option (c : string) :
  c ∈ optionValues categorySelect → validCategory c → c ∈ categories.
Proof.
  rewrite optionValues_categorySelect. unfold categories, validCategory.
  rewrite !elem_of_cons. intros [->|?]; [cbn; lia|tauto].
Qed.

Lemma setField_category name value data :
  FormData.category (setField name value data) =
    if name === "category" then value else FormData.category data.
Proof. unfold setField. by case_decides. Qed.

Lemma input_uiInvariant name value st :
  offered st (Input name value) → uiInvariant st → uiInvariant (input name value st).
Proof.
  intros Hoff (Hsel & Hrows & Hcat). split_and!; [done|done|].
  cbn. rewrite setField_category. case_bool_decide as Hn; [|done].
  destruct Hoff as [Hin|[_ ?]]; [|done]. subst name.
  rewrite !elem_of_cons, elem_of_nil in Hin. by destruct Hin as [?|[?|[]]].
Qed.

Lemma submit_uiInvariant st : uiInvariant st → uiInvariant (submit st).
Proof.
  intros (Hsel & Hrows & Hcat).
  destruct (decide (validFormData (values (form st)))) as [Hv|Hv].
  - rewrite submit_valid by done. split_and!; [done| |done]. cbn.
    apply Forall_app. split; [done|]. apply Forall_singleton. cbn.
    apply category_option; [done|]. apply Hv.
  - by rewrite submit_invalid.
Qed.

Lemma handle_uiInvariant e st :
  offered st e → uiInvariant st → uiInvariant (handle e st).
Proof.
  destruct e as [name value| |value|index]; cbn [handle run].
  - apply input_uiInvariant.
  - intros _. apply submit_uiInvariant.
  - intros Hv (Hsel & Hrows & Hcat). split_and!; [|done|done].
    cbn. unfold selections. by apply elem_of_cons; right.
  - intros _ (Hsel & Hrows & Hcat). split_and!; [done| |done].
    rewrite onDelete_rows. by apply Forall_delete.
Qed.

Lemma handle_formInvariant e st : formInvariant st → formInvariant (handle e st).
Proof.
  destruct e as [name value| |value|index]; cbn [handle run].
  - apply input_formInvariant.
  - intros _. apply submit_formInvariant.
  - apply setSelected_formInvariant.
  - apply setRows_formInvariant.
Qed.

Lemma runEvents_formInvariant es st :
  formInvariant st → formInvariant (runEvents es st).
Proof.
  revert st. induction es as [|e es IH]; intros st Hst; [done|].
  rewrite runEvents_cons. by apply IH, handle_formInvariant.
Qed.

(** ** Reachable states *)

(** Rule induction on reachable states: a property of [initial] that every
    offered event preserves holds of every reachable state. *)
Lemma reachable_ind (P : state → Prop) :
  P initial →
  (∀ st e, reachable st → offered st e → P st → P (handle e st)) →
  ∀ st, reachable st → P st.
Proof.
  intros Hinit Hstep. apply rtc_ind_r; [exact Hinit|].
  intros st st' Hst Hstep' HP. destruct Hstep' as [st e He]. by apply Hstep.
Qed.

Lemma reachable_handle st e : reachable st → offered st e → reachable (handle e st).
Proof. intros Hst He. eapply rtc_r; [done|]. by apply step_event. Qed.

Lemma reachable_inv st : reachable st → validRows st ∧ uiInvariant st.
Proof.
  revert st. apply reachable_ind.
  - split; [apply initial_validRows|apply initial_uiInvariant].
  - intros st e _ He [??]. split; [by apply handle_validRows|by apply handle_uiInvariant].
Qed.

(** ** The filter on the values the selectors offer *)

(** For a selection and a category that come from the selectors, a row is
    kept exactly when the selection is the initial empty string, ["all"],
    or the row's category: containment is equality there. *)
Lemma keepRow_options sel (item : TableRow) :
  sel ∈ selections → TableRow.category item ∈ categories →
  keepRow sel item = true ↔ sel = "" ∨ sel = "all" ∨ TableRow.category item = sel.
Proof.
  destruct item as [d a c]. unfold selections, categories.
  rewrite optionValues_filterSelect, !elem_of_cons, !elem_of_nil. cbn.
  intros Hsel Hc. destruct_or!; subst; try done; vm_compute;
    (split; [by auto|first [done|by intros [?|[?|?]]]]).
Qed.

(** ** The abstraction is defined and commutes with the steps *)

Lemma absCategory_Some c : c ∈ categories → is_Some (absCategory c).
Proof.
  unfold categories. rewrite !elem_of_cons, elem_of_nil.
  intros [->|[->|[->|[]]]]; by eexists.
Qed.

Lemma absCategory_categories c k : absCategory c = Some k → c ∈ categories.
Proof.
  unfold absCategory, categories. rewrite !elem_of_cons.
  repeat case_bool_decide; intros; simplify_eq; auto.
Qed.

Lemma categories_selections c : c ∈ categories → c ∈ selections.
Proof.
  unfold categories, selections. rewrite optionValues_filterSelect, !elem_of_cons.
  tauto.
Qed.

Lemma absCategory_inj c c' k :
  absCategory c = Some k → absCategory c' = Some k → c = c'.
Proof. unfold absCategory. repeat case_bool_decide; by intros; simplify_eq. Qed.

Lemma absRow_Some r :
  validRow r → TableRow.category r ∈ categories → is_Some (absRow r).
Proof.
  intros (_ & (z & Hz & _) & _) [c Hc]%absCategory_Some.
  unfold absRow. rewrite Hc, Hz. by eexists.
Qed.

Lemma absRow_inv r e :
  absRow r = Some e →
  TableRow.description r = Spec.description e ∧
  TableRow.amount r = Int (Spec.amount e) ∧
  absCategory (TableRow.category r) = Some (Spec.category e).
Proof.
  unfold absRow. destruct (absCategory _) as [c|]; [|done].
  destruct (TableRow.amount r) as [|z]; [done|]. by intros [= <-].
Qed.

Lemma absFilter_Some s : s ∈ selections → is_Some (absFilter s).
Proof.
  unfold selections. rewrite optionValues_filterSelect, !elem_of_cons, elem_of_nil.
  intros [->|[->|[->|[->|[->|[]]]]]]; by eexists.
Qed.

Lemma abs_Some st a :
  abs st = Some a ↔
  Forall2 rowEntry (rows st) (Spec.entries a) ∧
  absFilter (selected st) = Some (Spec.selection a).
Proof.
  unfold abs, rowEntry. destruct a as [es f]. cbn [Spec.entries Spec.selection].
  rewrite <-mapM_Some. split.
  - destruct (mapM absRow (rows st)); [|done]. cbn.
    destruct (absFilter (selected st)); [|done]. cbn. by intros [= -> ->].
  - by intros [-> ->].
Qed.

(** The abstraction is defined on the states that satisfy the invariants. *)
Lemma abs_is_Some st : validRows st → uiInvariant st → is_Some (abs st).
Proof.
  intros Hv (Hsel & Hcat & _). unfold abs.
  destruct (mapM_is_Some_2 absRow (rows st)) as [es ->].
  { unfold validRows in Hv. rewrite Forall_forall in Hv, Hcat |- *.
    intros r Hr. apply absRow_Some; auto. }
  destruct (absFilter_Some _ Hsel) as [f ->]. by eexists.
Qed.

(** A row is kept by the component's filter exactly when its entry passes
    the abstract filter. *)
Lemma keepRow_passes sel f r e :
  absFilter sel = Some f → rowEntry r e →
  keepRow sel r = true ↔ Spec.passes f e.
Proof.
  intros Hf (_ & _ & Hc)%absRow_inv. unfold absFilter in Hf.
  destruct (decide (sel = "")) as [->|].
  { simplify_eq/=. by rewrite keepRow_empty. }
  destruct (decide (sel = "all")) as [->|].
  { simplify_eq/=. by rewrite keepRow_all. }
  rewrite !bool_decide_eq_false_2 in Hf by done. cbn in Hf.
  destruct (absCategory sel) as [k|] eqn:Hk; simplify_eq/=.
  rewrite keepRow_options
    by eauto using absCategory_categories, categories_selections.
  split.
  - intros [?|[?|<-]]; [done|done|]. congruence.
  - intros <-. right; right. by eapply absCategory_inj.
Qed.

(** The rows shown stand for the entries the abstract machine shows. *)
Lemma abs_view st a :
  abs st = Some a → Forall2 rowEntry (filterCategories st) (Spec.view a).
Proof.
  intros [Hrows Hsel]%abs_Some. rewrite filterCategories_filter.
  apply Forall2_filter; [|done]. intros r e Hre. by eapply keepRow_passes.
Qed.

Lemma Zsum_rowEntry rs es :
  Forall2 rowEntry rs es → Zsum amountZ rs = Zsum Spec.amount es.
Proof.
  induction 1 as [|r e rs es (_ & Ha & _)%absRow_inv _ IH]; [done|].
  rewrite !Zsum_cons, IH. unfold amountZ. by rewrite Ha.
Qed.

(** The total displayed is the abstract total. *)
Lemma abs_total st a : abs st = Some a → total st = Int (Spec.total a).
Proof.
  intros Hview%abs_view. unfold total, Spec.total.
  rewrite reduce_amounts, (Zsum_rowEntry _ _ Hview); [done|].
  eapply Forall2_Forall_l; [done|]. apply Forall_true.
  intros r e (_ & ? & _)%absRow_inv. by eexists.
Qed.

Lemma abs_totalHidden st a :
  abs st = Some a → rows st = [] ↔ Spec.totalHidden a = true.
Proof.
  intros [Hrows _]%abs_Some. rewrite Spec.totalHidden_iff.
  apply Forall2_length in Hrows. rewrite <-!length_zero_iff_nil. by rewrite Hrows.
Qed.

(** The row a valid submission builds stands for an entry. *)
Lemma absRow_toRow st :
  uiInvariant st → validFormData (values (form st)) →
  is_Some (absRow (toRow (values (form st)))).
Proof.
  intros (_ & _ & Hcat) Hv. apply absRow_Some; [by apply toRow_valid|].
  apply category_option; [done|apply Hv].
Qed.

(** One step of the component is the abstract step of its event. *)
Lemma abs_handle st e a :
  uiInvariant st → offered st e → abs st = Some a →
  abs (handle e st) = Some (Spec.step_opt (absEvent st e) a).
Proof.
  intros Hui He [Hrows Hsel]%abs_Some. apply abs_Some.
  destruct e as [name value| |value|index]; cbn [handle run absEvent].
  - done.
  - case_decide as Hv; [|by rewrite submit_invalid].
    rewrite submit_valid by done.
    destruct (absRow_toRow st Hui Hv) as [en Hen]. rewrite Hen. cbn. split; [|done]. apply Forall2_app; [done|].
    by apply Forall2_cons.
  - destruct (absFilter_Some value) as [f Hf]; [by apply elem_of_cons; right|].
    rewrite Hf. by cbn.
  - cbn [Spec.step_opt Spec.step Spec.entries Spec.selection].
    rewrite onDelete_rows. split; [|done]. by apply Forall2_delete.
Qed.

(** The abstraction commutes with sequences of offered events. *)
Lemma abs_runEvents es st a :
  validRows st → uiInvariant st → offeredAll es st → abs st = Some a →
  abs (runEvents es st) = Some (Spec.run (absEvents st es) a).
Proof.
  revert st a. induction es as [|e es IH]; intros st a Hv Hui Hoff Ha; [done|].
  destruct Hoff as [He Hes]. rewrite runEvents_cons. cbn [absEvents].
  rewrite Spec.run_app, Spec.run_option_list.
  apply IH; auto using handle_validRows, handle_uiInvariant, abs_handle.
Qed.

Lemma abs_initial : abs initial = Some Spec.initial.
Proof. done. Qed.

(** ** Entering rows *)

Lemma enter_offered d st :
  FormData.category d ∈ optionValues categorySelect → offeredAll (enter d) st.
Proof.
  intros Hc. cbn [enter offeredAll offered]. rewrite !elem_of_cons.
  split_and!; auto.
Qed.

Lemma enter_run d st :
  validFormData d →
  runEvents (enter d) st = mkState (rows st ++ [toRow d]) (selected st) (mkUseForm d ∅ true).
Proof.
  intros Hv. unfold enter. rewrite !runEvents_cons, runEvents_nil.
  cbn [handle run]. rewrite submit_valid; by destruct d.
Qed.

Lemma enter_all ds st :
  Forall (λ d, validFormData d ∧ FormData.category d ∈ optionValues categorySelect) ds →
  offeredAll (ds ≫= enter) st ∧
  rows (runEvents (ds ≫= enter) st) = rows st ++ (toRow <$> ds).
Proof.
  intros Hds. revert st. induction Hds as [|d ds [Hv Hc] _ IH]; intros st.
  { cbn. by rewrite app_nil_r. }
  rewrite bind_cons, offeredAll_app, runEvents_app, enter_run by done.
  destruct (IH (mkState (rows st ++ [toRow d]) (selected st) (mkUseForm d ∅ true)))
    as [Hoff ->].
  split_and!; [by apply enter_offered|done|]. cbn. by rewrite <-app_assoc.
Qed.

(** ** The selection does not interfere with the rows *)

Lemma handle_setSelected e v st :
  isChange e = false → handle e (setSelected v st) = setSelected v (handle e st).
Proof.
  destruct e as [name value| |value|index]; [done| |done|done]. intros _.
  cbn [handle run]. unfold submit, handleSubmit. cbn [form setSelected].
  by destruct (resolve (values (form st))).
Qed.

Lemma runEvents_setSelected es v st :
  Forall (λ e, isChange e = false) es →
  runEvents es (setSelected v st) = setSelected v (runEvents es st).
Proof.
  intros Hes. revert st. induction Hes as [|e es He _ IH]; intros st; [done|].
  by rewrite !runEvents_cons, handle_setSelected, IH.
Qed.

(** ** Main theorems *)

(** C1 (refinement) The component refines the abstract entry-list manager:
    after any sequence of events the rendered tree offers, the state of the
    component stands for the state the abstract machine reaches from its
    initial state by the abstract actions of the events. *)
Theorem refinement es :
  offeredAll es initial →
  abs (runEvents es initial) = Some (Spec.run (absEvents initial es) Spec.initial).
Proof.
  intros Hes.
  apply abs_runEvents; auto using initial_validRows, initial_uiInvariant, abs_initial.
Qed.

Lemma refinement_witness :
  abs (runEvents session initial) =
    Some (Spec.run (absEvents initial session) Spec.initial).
Proof. apply (refinement session). by_compute. Defined.

(** C2 (safety) Deleting under a filter removes the wrong row: there is a
    reachable state in which the button of a displayed row is clicked, the
    row stays in the list, and a row the filter hides is removed instead. *)
Theorem delete_under_filter :
  ∃ st index shown hidden,
    reachable st ∧ offered st (Click index) ∧
    filterCategories st !! index = Some shown ∧
    hidden ∈ rows st ∧ (hidden ∉ filterCategories st) ∧
    shown ∈ rows (handle (Click index) st) ∧
    (hidden ∉ rows (handle (Click index) st)).
Proof.
  exists (runEvents session initial), 0,
    (TableRow.mk "Power" (Int 40) "utilities"), (TableRow.mk "Milk" (Int 5) "groceries").
  split; [apply reachable_runEvents; by_compute|].
  split_and!; by_compute.
Qed.

(** C3 (invariant) Every row of the list passed the schema, after any
    sequence of events, offered by the rendered tree or not: its
    description has at least three code units, its amount is a non-zero
    integer and its category is not empty. *)
Theorem events_validRows es : Forall validRow (rows (runEvents es initial)).
Proof. apply runEvents_validRows, initial_validRows. Qed.

(** C9 (refinement) One step of the component from a reachable state is
    one step of the abstract machine, or a stutter: the abstraction is
    defined on the state, and the state after the event stands for the
    abstract state after the abstract action of the event. *)
Theorem simulation st e :
  reachable st → offered st e →
  ∃ a, abs st = Some a ∧
       abs (handle e st) = Some (Spec.step_opt (absEvent st e) a).
Proof.
  intros [Hv Hui]%reachable_inv He. destruct (abs_is_Some st Hv Hui) as [a Ha].
  exists a. split; [done|]. by apply abs_handle.
Qed.

Lemma simulation_witness :
  ∃ a, abs (runEvents session initial) = Some a ∧
       abs (handle (Click 0) (runEvents session initial)) =
         Some (Spec.step_opt (absEvent (runEvents session initial) (Click 0)) a).
Proof.
  apply (simulation (runEvents session initial) (Click 0)).
  - apply reachable_runEvents. by_compute.
  - by_compute.
Defined.

(** C10 (refinement) What the component displays is what the abstract
    machine shows: the rows of the view stand for the entries of the
    abstract view, in order; the total is the abstract total; and the total
    row is hidden exactly when the abstract machine hides it. *)
Theorem observations st a :
  abs st = Some a →
  Forall2 rowEntry (filterCategories st) (Spec.view a) ∧
  total st = Int (Spec.total a) ∧
  (classOf (totalRow st) = "hidden" ↔ Spec.totalHidden a = true).
Proof.
  intros Ha. split_and!.
  - by apply abs_view.
  - by apply abs_total.
  - rewrite totalRow_hidden. by apply abs_totalHidden.
Qed.

Lemma observations_witness :
  Forall2 rowEntry (filterCategories (runEvents session initial))
    (Spec.view (Spec.run (absEvents initial session) Spec.initial)) ∧
  total (runEvents session initial) =
    Int (Spec.total (Spec.run (absEvents initial session) Spec.initial)) ∧
  (classOf (totalRow (runEvents session initial)) = "hidden" ↔
   Spec.totalHidden (Spec.run (absEvents initial session) Spec.initial) = true).
Proof.
  apply (observations (runEvents session initial)
           (Spec.run (absEvents initial session) Spec.initial)).
  vm_compute. reflexivity.
Defined.

(** C12 (functional) A click on a delete button the tree offers removes
    exactly one row, the one at the button's index in the list of rows
    (not in the view): the list gets one shorter. *)
Theorem click_removes st index :
  offered st (Click index) →
  ∃ removed, rows st !! index = Some removed ∧
    rows (handle (Click index) st) = delete index (rows st) ∧
    length (rows (handle (Click index) st)) = pred (length (rows st)).
Proof.
  intros Hlt%offered_Click. pose proof (filterCategories_length st).
  destruct (lookup_lt_is_Some_2 (rows st) index) as [removed Hr]; [lia|].
  exists removed. cbn [handle run]. rewrite onDelete_rows. split_and!; [done..|].
  rewrite length_delete by eauto. lia.
Qed.

Lemma click_removes_witness :
  ∃ removed, rows (runEvents session initial) !! 0 = Some removed ∧
    rows (handle (Click 0) (runEvents session initial)) =
      delete 0 (rows (runEvents session initial)) ∧
    length (rows (handle (Click 0) (runEvents session initial))) =
      pred (length (rows (runEvents session initial))).
Proof. apply (click_removes (runEvents session initial) 0). by_compute. Defined.

(** C13 (functional) With the selection of the first render or ["all"],
    deleting is right: the view after a click on the button at [index] is
    the view before it without the row displayed at [index]. *)
Theorem delete_unfiltered st index :
  selected st = "" ∨ selected st = "all" →
  filterCategories (handle (Click index) st) = delete index (filterCategories st).
Proof.
  intros Hs. rewrite !filterCategories_id by (intros; by apply keepRow_unfiltered).
  apply onDelete_rows.
Qed.

Lemma delete_unfiltered_witness :
  filterCategories (handle (Click 0) (runEvents (enter (FormData.mk "Milk" "5" "groceries")) initial)) =
    delete 0 (filterCategories (runEvents (enter (FormData.mk "Milk" "5" "groceries")) initial)).
Proof.
  apply (delete_unfiltered (runEvents (enter (FormData.mk "Milk" "5" "groceries")) initial) 0).
  by left.
Defined.

(** C26 (invariant) In a reachable state the selection is the initial [""]
    or an option of the filter selector, the category of every row is one
    of the three categories, and the category input holds an option of its
    selector. *)
Theorem reachable_uiInvariant st : reachable st → uiInvariant st.
Proof. by intros [_ ?]%reachable_inv. Qed.

Lemma reachable_uiInvariant_witness : uiInvariant (runEvents session initial).
Proof. apply (reachable_uiInvariant (runEvents session initial)), reachable_runEvents. by_compute. Defined.

(** C17 (functional) In a reachable state the filter is exact: with the
    initial selection or ["all"] the view is the whole list, and with a
    category it is the rows of exactly that category, in order. *)
Theorem reachable_filter st :
  reachable st →
  filterCategories st =
    if decide (selected st = "" ∨ selected st = "all") then rows st
    else filter (λ r, TableRow.category r = selected st) (rows st).
Proof.
  intros [_ (Hsel & Hcat & _)]%reachable_inv. case_decide as Hs.
  { apply filterCategories_id. intros item. by apply keepRow_unfiltered. }
  rewrite filterCategories_filter. apply filter_Forall_iff.
  eapply Forall_impl; [done|]. intros r Hr. cbn beta.
  rewrite keepRow_options by done. tauto.
Qed.

Lemma reachable_filter_witness :
  filterCategories (runEvents session initial) =
    if decide (selected (runEvents session initial) = "" ∨
               selected (runEvents session initial) = "all")
    then rows (runEvents session initial)
    else filter (λ r, TableRow.category r = selected (runEvents session initial))
           (rows (runEvents session initial)).
Proof. apply (reachable_filter (runEvents session initial)), reachable_runEvents. by_compute. Defined.


(** C27 (liveness) Every list of valid entries can be entered: for values
    that pass the schema and whose categories are options of the selector,
    typing each entry and submitting it, in order, is a sequence of offered
    events that ends with exactly their rows. *)
Theorem rows_constructible (ds : list FormData) :
  Forall (λ d, validFormData d ∧ FormData.category d ∈ optionValues categorySelect) ds →
  offeredAll (ds ≫= enter) initial ∧
  rows (runEvents (ds ≫= enter) initial) = toRow <$> ds.
Proof. intros Hds. by destruct (enter_all ds initial Hds). Qed.

Lemma rows_constructible_witness :
  offeredAll ([FormData.mk "Milk" "5" "groceries"] ≫= enter) initial ∧
  rows (runEvents ([FormData.mk "Milk" "5" "groceries"] ≫= enter) initial) =
    toRow <$> [FormData.mk "Milk" "5" "groceries"].
Proof.
  apply (rows_constructible [FormData.mk "Milk" "5" "groceries"]).
  apply Forall_singleton. split; by_compute.
Defined.

(** C28 (safety) The filter does not interfere with the list: the rows
    after a sequence of events are the rows after the same sequence without
    its changes of the filter selector. *)
Theorem selection_noninterference es st :
  rows (runEvents es st) =
    rows (runEvents (filter (λ e, isChange e = false) es) st).
Proof.
  revert st. induction es as [|e es IH]; intros st; [done|].
  rewrite runEvents_cons, filter_cons. destruct (isChange e) eqn:He.
  - rewrite decide_False by done. destruct e as [| |value|]; try done.
    cbn [handle run]. unfold handleSelected.
    rewrite IH, runEvents_setSelected; [done|]. apply Forall_filter_self.
  - rewrite decide_True by done. rewrite runEvents_cons. apply IH.
Qed.

(** C23 (safety) The total displayed is never [NaN]: after any sequence of
    events it is the integer sum of the amounts of the rows shown. *)
Theorem events_total es :
  total (runEvents es initial) =
    Int (Zsum amountZ (filterCategories (runEvents es initial))).
Proof. apply total_Zsum, runEvents_validRows, initial_validRows. Qed.

(** C11 (refinement) A stutter of the abstract machine is invisible: an
    offered event from a reachable state that is no abstract action
    (editing an input, a rejected submission) leaves the table section as
    it was. *)
Theorem stutter_table st e :
  reachable st → offered st e → absEvent st e = None →
  tableSection (handle e st) = tableSection st.
Proof.
  intros [Hv Hui]%reachable_inv He Hnone. apply tableSection_proper.
  destruct e as [name value| |value|index]; cbn [handle run absEvent] in *.
  - apply input_equiv.
  - case_decide as Hd; [|by apply submit_invalid_equiv].
    destruct (absRow_toRow st Hui Hd) as [en Hen]. by rewrite Hen in Hnone.
  - destruct (absFilter_Some value) as [f Hf]; [by apply elem_of_cons; right|].
    by rewrite Hf in Hnone.
  - done.
Qed.

Lemma stutter_table_witness :
  tableSection (handle Submit initial) = tableSection initial.
Proof.
  apply (stutter_table initial Submit).
  - apply rtc_refl.
  - by_compute.
  - vm_compute. reflexivity.
Defined.

(** C14 (refinement) Without a filter a click is the deletion the user
    means: in a reachable state whose selection is the initial one or
    ["all"], the state after a click on the delete button at [index] stands
    for the abstract state without the entry displayed at [index]. *)
Theorem click_intended st index a :
  reachable st → offered st (Click index) →
  selected st = "" ∨ selected st = "all" →
  abs st = Some a →
  abs (handle (Click index) st) = Some (Spec.deleteShown index a).
Proof.
  intros [_ Hui]%reachable_inv He Hs Ha.
  rewrite (abs_handle st (Click index) a Hui He Ha). cbn [absEvent Spec.step_opt].
  apply abs_Some in Ha as [_ Hf]. destruct a as [es f]. cbn [Spec.selection] in Hf.
  assert (f = Spec.All) as ->.
  { destruct Hs as [Hs|Hs]; rewrite Hs in Hf; vm_compute in Hf; congruence. }
  by rewrite Spec.deleteShown_All.
Qed.

Lemma click_intended_witness :
  abs (handle (Click 0) (runEvents (enter (FormData.mk "Milk" "5" "groceries")) initial)) =
    Some (Spec.deleteShown 0
            (Spec.mkState [Spec.mkEntry "Milk" 5 Spec.groceries] Spec.All)).
Proof.
  apply (click_intended
           (runEvents (enter (FormData.mk "Milk" "5" "groceries")) initial) 0).
  - apply reachable_runEvents. by_compute.
  - by_compute.
  - by left.
  - vm_compute. reflexivity.
Defined.


(** C24 (invariant) The messages the form displays are always the schema's
    verdict on what the inputs hold: after any sequence of events, before
    the first submission no field has a message, and after it each field
    has its message exactly when its current value fails its check; the
    form is valid exactly when no message is displayed. *)
Theorem events_messages es k :
  let st := runEvents es initial in
  isSubmitted (form st) = true →
  textContent <$> errorMessage (errors (form st)) k =
    option_list (fieldError (values (form st)) k) ∧
  (isValid (form st) = true ↔ errors (form st) = ∅).
Proof.
  cbn zeta. intros Hs.
  pose proof (runEvents_formInvariant es initial initial_formInvariant) as Hinv.
  unfold formInvariant in Hinv. rewrite Hs in Hinv.
  rewrite errorMessage_text, Hinv, schema_resolverErrors, resolverErrors_empty.
  split; [done|apply isValid_true].
Qed.

Lemma events_messages_witness :
  let st := runEvents [Input "description" "ab"; Submit; Input "amount" "7"] initial in
  textContent <$> errorMessage (errors (form st)) "amount" =
    option_list (fieldError (values (form st)) "amount") ∧
  (isValid (form st) = true ↔ errors (form st) = ∅).
Proof.
  apply (events_messages [Input "description" "ab"; Submit; Input "amount" "7"] "amount").
  reflexivity.
Defined.

(** C25 (invariant) Before the first submission the form displays no
    message, whatever has been typed. *)
Theorem events_no_message es :
  isSubmitted (form (runEvents es initial)) = false →
  errors (form (runEvents es initial)) = ∅.
Proof.
  intros Hs.
  pose proof (runEvents_formInvariant es initial initial_formInvariant) as Hinv.
  unfold formInvariant in Hinv. by rewrite Hs in Hinv.
Qed.

Lemma events_no_message_witness :
  errors (form (runEvents [Input "description" "ab"; Change "all"] initial)) = ∅.
Proof.
  apply (events_no_message [Input "description" "ab"; Change "all"]). reflexivity.
Defined.
